(* ===== verification/_CoqProject ===== *)
-Q . S2P
Prelude.v
JsValue.v
EcmaDate.v
Intl.v
DateFormat.v
PrettyDate.v
SortByField.v
CreatePage.v
