(* ===== verification/Prelude.v ===== *)
(** * A verification development for taskly's date and sorting helpers

    ** The program

    taskly is a small SvelteKit task manager.  The code verified here is
    [src/src/lib/index.js] (five helpers) and the page loader
    [src/src/routes/create/+page.js]:
    - [displayDate] (lines 6-53) formats a task's date range in af-ZA;
    - [displayDateShort] (55-62) formats one date as "d MMM." in af-ZA;
    - [formatDate] (67-71) formats one date in en-CA ("y-MM-dd"), or
      returns the number 0 for a falsy argument;
    - [displayPrettyDate] (77-123) labels a date relative to the clock
      ("Verby", "Vandag", "Môre", "Oormôre", "Hierdie week", "Hierdie
      maand", "Volgende maand", "Later"); it calls [formatDate], parses
      its output again with [new Date], and reads the clock up to seven
      times;
    - [sortByField] (147-160) sorts an array of records in place by one
      field with [Array.prototype.sort] and a comparator;
    - [load] (+page.js 1-20) returns a promise of the blank task.
    The helpers share no state; they interact through values: the string
    [formatDate] returns is parsed back by [displayPrettyDate], and the
    task [load] builds is what the form hands to the formatters.

    ** The files, in dependency order
    - [Prelude] (this file): floor-division facts, decimal printing and
      parsing of digits ([digits], [take_digits], [dec], [ndigits]), the
      scope [taskly_scope] with an option-binding notation, the hint
      databases [taskly] and [taskly_simpl] and the tactics the other
      files share.
    - [JsValue]: JavaScript values ([value], [number] with NaN and the
      infinities), ToBoolean ([truthy]), [typeof x === "number"], [??],
      ToString, Number::toString, strict equality on primitives,
      property access with its TypeError on [null]/[undefined], and
      completions ([Normal]/[Throw]).
    - [EcmaDate]: ECMA-262 time values in milliseconds ([option Z],
      [None] for NaN): Day, TimeWithinDay, DayFromYear, YearFromTime,
      MonthFromTime, DateFromTime, WeekDay, MakeDay, MakeDate, TimeClip;
      in [Section LocalTime] the host's offset [LocalTZA], LocalTime, the
      getters, [setHours(0,0,0,0)] ([setHours0]), [setDate], Date.parse of
      the ISO formats ([parse_iso]) and [new Date(v)] ([ToDate]).
    - [Intl]: [toLocaleDateString] in en-CA (exact) and in af-ZA through
      the interface [Class AfZaFormat] (one method per option bag the code
      uses), with the CLDR instance [cldr_af]; "Invalid Date" for NaN.
    - [DateFormat]: [displayDate], [displayDateShort], [formatDate], in a
      Section over the formatter and the offset [tz].
    - [PrettyDate]: [displayPrettyDate] in a clock monad ([Clock]: the
      readings [clk : nat -> Z] and the count of readings taken), the
      abstract specification [pretty_spec] on local day numbers and the
      refinement theorem.
    - [SortByField]: a stable insertion sort with its contract
      ([stable_sort_spec]) and uniqueness; [Array.prototype.sort]
      ([array_sort], CompareArrayElements as [sort_compare]) in the
      completion monad; [localeCompare] through the interface [Class
      Collator]; the comparator [field_comparator]; [sortByField] over a
      heap of arrays ([gmap positive (list value)]).
    - [CreatePage]: [load] and the blank task.

    ** Correspondence with the code
    Each helper is one Definition with the code's statements in order:
    its guards ([!x] as [negb (truthy x)]), early returns, every
    [new Date] as [ToDate], every getter and setter.  Strings are Rocq
    strings, integers are [Z] (all values the helpers compute are
    integers below 2^53, where doubles are exact), a Date is its time
    value.  In [displayPrettyDate] each [new Date()] and [Date.now()] is
    one [read_clock].  In [sortByField] each [a[field_name]] is one
    [get_prop], in evaluation order, so a [null] element throws where the
    code throws; the array lives in a heap so that "sorts in place and
    returns the same array" is a statement about the heap.

    ** What the theorems show (claim ids C1-C24 of the manifest)
    - displayPrettyDate: refinement of [pretty_spec] for a constant clock
      read at or after [tz] o'clock (C1); the past test (C6), today (C7),
      no date (C23), invalid dates (C17); and three defects: the end of
      the week before [tz] o'clock (C8), today's stored date west of UTC
      (C16), and a run whose readings straddle local midnight, which
      labels today neither "Vandag" nor "Verby" (C15).
    - sortByField: for numeric fields and for text fields, the result is
      a permutation sorted by the field, stable, and the only such list,
      so it does not depend on the engine's algorithm (C2, C5); in-place
      update of the heap (C3); the TypeError of a [null] element, heap
      unchanged (C13); mixed number and string fields make the comparator
      cyclic, so no arrangement is sorted by it (C14).
    - formatDate: idempotence east of UTC (C4), the day lost per round
      trip west of UTC (C9), number exactly for falsy arguments (C18).
    - displayDate and displayDateShort: each branch (C10-C12, C19-C22),
      the stored-day round trip (C24).
    - load ([CreatePage]) is modelled without a theorem of its own: the
      blank task only exercises the falsy guards covered by C18, C22 and
      C23.

    ** Bounds and assumptions
    - The host time zone is a fixed offset [tz] with [|tz| < msPerDay]
      (no daylight saving).  Theorems on parsing back a [formatDate]
      string assume a four-digit year ([four_digit_day]: local day
      numbers from -354285 to 2932896, years 1000 to 9999), the years
      in which the unpadded en-CA year is an ISO year.
    - [ndigits] counts decimal digits with fuel 32: every integer the
      code prints is below 10^16, and [ndigits_four] shows the fuel is
      enough for the years formatted.
    - Numbers are integer-valued; fractional doubles never arise in
      these helpers.

    ** Not modelled
    - [$lib/DB/DB.js] (only named by a JSDoc type in +page.js).
    - The af-ZA and collation tables of ICU: they are the interfaces
      [AfZaFormat] and [Collator], with instances used to evaluate
      examples ([cldr_af], [codepoint_collator]).
    - Date.parse of non-ISO strings (it is implementation-defined; the
      model returns NaN), daylight-saving transitions, getters defined
      by user code on the sorted records. *)

From Stdlib Require Import ZArith Lia String Ascii List.
Import ListNotations.

Declare Scope taskly_scope.
Delimit Scope taskly_scope with tk.

Create HintDb taskly discriminated.
Create Rewrite HintDb taskly_simpl.

(** Option binding with a pattern, for the parsers. *)
Notation "'let?' p ':=' e 'in' k" :=
  (match e with Some p => k | None => None end)
  (at level 10, p pattern, e at level 100, k at level 200) : taskly_scope.
Open Scope taskly_scope.

Open Scope Z_scope.

(** ** Floor division *)

(** [tk_divmod x k] adds the Euclidean decomposition of [x] by the
    positive constant [k] to the context, in the form lia uses. *)
Ltac tk_divmod x k :=
  pose proof (Z.div_mod x k ltac:(lia));
  pose proof (Z.mod_pos_bound x k ltac:(lia)).

(** [tk_fold_consts] computes sums of integer literals in the goal
    without unfolding [Z.add] on the terms that contain variables. *)
Ltac tk_fold_consts :=
  repeat match goal with
         | |- context [Z.add (Zpos ?x) (Zpos ?y)] =>
             let c := eval vm_compute in (Z.add (Zpos x) (Zpos y)) in
             change (Z.add (Zpos x) (Zpos y)) with c
         | |- context [Z.add Z0 (Zpos ?y)] => change (Z.add Z0 (Zpos y)) with (Zpos y)
         end.

Lemma div_succ (x k : Z) :
  0 < k -> (x + 1) / k = x / k + if (x + 1) mod k =? 0 then 1 else 0.
Proof.
  intros Hk. tk_divmod x k.
  destruct (Z.eq_dec (x mod k) (k - 1)) as [L|L].
  - assert (E : (x + 1) mod k = 0)
      by (symmetry; apply Z.mod_unique with (q := x / k + 1); lia).
    rewrite E. cbn. symmetry. apply Z.div_unique with (r := 0); lia.
  - assert (E : (x + 1) mod k = x mod k + 1)
      by (symmetry; apply Z.mod_unique with (q := x / k); lia).
    rewrite E. destruct (Z.eqb_spec (x mod k + 1) 0); [lia|].
    symmetry. apply Z.div_unique with (r := x mod k + 1); lia.
Qed.

Lemma mod_shift (x c k : Z) : 0 < k -> (x + c * k) mod k = x mod k.
Proof. intros. apply Z.mod_add. lia. Qed.

(** [q] is the floor quotient of [a] by [b] as soon as [a] lies in
    [q*b, q*b + b). *)
Lemma div_between (a b q : Z) : 0 < b -> q * b <= a < q * b + b -> a / b = q.
Proof. intros Hb H. symmetry. apply Z.div_unique with (r := a - q * b); lia. Qed.

Lemma mod_between (a b q : Z) : 0 < b -> q * b <= a < q * b + b -> a mod b = a - q * b.
Proof. intros Hb H. symmetry. apply Z.mod_unique with (q := q); lia. Qed.

Lemma div_mul_add (q b r : Z) : 0 < b -> 0 <= r < b -> (q * b + r) / b = q.
Proof. intros. apply div_between; lia. Qed.

Lemma mod_mul_add (q b r : Z) : 0 < b -> 0 <= r < b -> (q * b + r) mod b = r.
Proof. intros. rewrite (mod_between _ _ q); lia. Qed.

#[export] Hint Resolve div_mul_add mod_mul_add : taskly.

(** ** Decimal digits *)

(** ASCII digits: character code 48 + d. *)
Definition digit_char (d : Z) : ascii := ascii_of_nat (Z.to_nat (48 + d)).

Definition digit_val (c : ascii) : option Z :=
  let v := Z.of_nat (nat_of_ascii c) - 48 in
  if andb (0 <=? v) (v <=? 9) then Some v else None.

(** The [w] low decimal digits of [n], most significant first, padded
    with zeros (ICU's "MM"/"dd" fields and the ISO "YYYY" field). *)
Fixpoint digits (w : nat) (n : Z) : string :=
  match w with
  | O => EmptyString
  | S w' => digits w' (n / 10) ++ String (digit_char (n mod 10)) EmptyString
  end.

(** Read exactly [w] decimal digits from the front of a string. *)
Fixpoint take_digits (w : nat) (acc : Z) (s : string) : option (Z * string) :=
  match w with
  | O => Some (acc, s)
  | S w' =>
      match s with
      | String c s' =>
          match digit_val c with
          | Some d => take_digits w' (acc * 10 + d) s'
          | None => None
          end
      | EmptyString => None
      end
  end.

(** Number of decimal digits of a non-negative integer; the fuel bounds
    the number of divisions and 32 covers every integer below 10^32. *)
Fixpoint ndigits_fuel (fuel : nat) (n : Z) : nat :=
  match fuel with
  | O => 1
  | S f => if n <? 10 then 1 else S (ndigits_fuel f (n / 10))
  end.

Definition ndigits (n : Z) : nat := ndigits_fuel 32 n.

(** Unpadded decimal representation of a non-negative integer. *)
Definition dec (n : Z) : string := digits (ndigits n) n.

Lemma digit_val_char (d : Z) : 0 <= d <= 9 -> digit_val (digit_char d) = Some d.
Proof.
  intros H.
  assert (d = 0 \/ d = 1 \/ d = 2 \/ d = 3 \/ d = 4 \/ d = 5 \/ d = 6 \/ d = 7
          \/ d = 8 \/ d = 9) as Hd by lia.
  repeat destruct Hd as [-> | Hd]; subst; reflexivity.
Qed.

Lemma string_app_assoc (a b c : string) : ((a ++ b) ++ c)%string = (a ++ (b ++ c))%string.
Proof. induction a as [|x a IH]; simpl; [reflexivity | now rewrite IH]. Qed.

Lemma string_length_app (a b : string) :
  String.length (a ++ b) = (String.length a + String.length b)%nat.
Proof. induction a as [|x a IH]; simpl; [reflexivity | now rewrite IH]. Qed.

Lemma digits_length (w : nat) (n : Z) : String.length (digits w n) = w.
Proof.
  revert n; induction w as [|w IH]; intros n; simpl; [reflexivity|].
  rewrite string_length_app, IH. simpl. lia.
Qed.

Lemma take_digits_add (a b : nat) (acc : Z) (s : string) :
  take_digits (a + b) acc s =
  match take_digits a acc s with
  | Some (v, s') => take_digits b v s'
  | None => None
  end.
Proof.
  revert acc s; induction a as [|a IH]; intros acc s; simpl; [reflexivity|].
  destruct s as [|c s]; [reflexivity|].
  destruct (digit_val c); [apply IH | reflexivity].
Qed.

(** Round trip: reading back [w] printed digits gives [n mod 10^w]. *)
Lemma take_digits_digits (w : nat) (acc n : Z) (rest : string) :
  take_digits w acc (digits w n ++ rest) =
  Some (acc * 10 ^ Z.of_nat w + n mod 10 ^ Z.of_nat w, rest).
Proof.
  revert acc n rest; induction w as [|w IH]; intros acc n rest.
  - simpl. rewrite Z.mod_1_r. f_equal. f_equal. lia.
  - cbn [digits]. rewrite string_app_assoc. cbn [append].
    replace (S w) with (w + 1)%nat by lia.
    rewrite take_digits_add.
    rewrite IH. cbn [take_digits].
    rewrite digit_val_char by (pose proof (Z.mod_pos_bound n 10 ltac:(lia)); lia).
    rewrite Nat2Z.inj_add, Z.pow_add_r by lia.
    replace (10 ^ Z.of_nat w * 10 ^ Z.of_nat 1) with (10 * 10 ^ Z.of_nat w)
      by (cbn [Z.of_nat Pos.of_succ_nat]; ring).
    rewrite Z.rem_mul_r by (try lia; apply Z.pow_pos_nonneg; lia).
    f_equal. f_equal. ring.
Qed.

Lemma ndigits_fuel_step (f : nat) (n : Z) :
  ndigits_fuel (S f) n = if n <? 10 then 1%nat else S (ndigits_fuel f (n / 10)).
Proof. reflexivity. Qed.

Lemma ndigits_four (n : Z) : 1000 <= n <= 9999 -> ndigits n = 4%nat.
Proof.
  intros H. unfold ndigits. tk_divmod n 10. tk_divmod (n / 10) 10. tk_divmod (n / 10 / 10) 10.
  rewrite !ndigits_fuel_step.
  destruct (Z.ltb_spec n 10); [lia|].
  destruct (Z.ltb_spec (n / 10) 10); [lia|].
  destruct (Z.ltb_spec (n / 10 / 10) 10); [lia|].
  destruct (Z.ltb_spec (n / 10 / 10 / 10) 10); [reflexivity|lia].
Qed.

(** Closes a concrete arithmetic goal by evaluation: after [vm_compute],
    [<=] and [<] on literals are comparisons of constructors. *)
Ltac tk_concrete := vm_compute; repeat split; congruence.

(** A printed number starts with a digit character. *)
Lemma digits_head (w : nat) (n : Z) :
  (1 <= w)%nat -> exists d rest, digits w n = String (digit_char d) rest /\ 0 <= d <= 9.
Proof.
  revert n; induction w as [|w IH]; intros n Hw; [lia|].
  destruct w as [|w].
  - exists (n mod 10), EmptyString. split; [reflexivity|].
    pose proof (Z.mod_pos_bound n 10 ltac:(lia)). lia.
  - destruct (IH (n / 10) ltac:(lia)) as (d & rest & E & Hd).
    exists d, (rest ++ String (digit_char (n mod 10)) EmptyString)%string.
    split; [|exact Hd]. change (digits (S (S w)) n) with
      (digits (S w) (n / 10) ++ String (digit_char (n mod 10)) EmptyString)%string.
    rewrite E. reflexivity.
Qed.

Lemma digit_char_code (d : Z) : 0 <= d <= 9 -> nat_of_ascii (digit_char d) = Z.to_nat (48 + d).
Proof. intros H. unfold digit_char. apply nat_ascii_embedding. lia. Qed.
