(* ===== verification/JsValue.v ===== *)
(** * JavaScript values as the helpers of [src/src/lib/index.js] use them

    The ECMAScript operations the helpers rely on: ToBoolean ([!x] in every
    guard), [typeof x === "number"], the [??] operator, [String(x)]
    (ToString) and strict equality on primitives, property access [a[k]]
    with its TypeError on [null]/[undefined], and Number::toString.

    Numbers are integer-valued doubles together with NaN and the two
    infinities: every number the helpers compute (time values, day and
    month numbers, field values used as sort keys in the app) is an
    integer of magnitude at most 2^53, where IEEE arithmetic is exact.
    Objects are plain data ([VObj] with own properties in creation order,
    [VArr] dense arrays, [VDate] a Date with its time value, [None] for an
    invalid date); properties inherited from prototypes are not modelled. *)

From Stdlib Require Import ZArith Lia String Ascii List Bool.
From S2P Require Import Prelude.
Import ListNotations.

Open Scope Z_scope.
Open Scope string_scope.

Inductive number :=
| NFin (z : Z)
| NNaN
| NPosInf
| NNegInf.

#[warnings="-register-all"]
Inductive value :=
| VUndefined
| VNull
| VBool (b : bool)
| VNum (n : number)
| VStr (s : string)
| VDate (tv : option Z)
| VObj (props : list (string * value))
| VArr (elems : list value).

(** Abrupt completions: the only exception the helpers can raise is the
    TypeError of a property read on [null] or [undefined]. *)
Inductive js_error := TypeError (msg : string).

Inductive completion (A : Type) :=
| Normal (a : A)
| Throw (e : js_error).
Arguments Normal {A} a.
Arguments Throw {A} e.

(** ** ToBoolean (ECMA-262 7.1.2); [!x] is [negb (truthy x)]. *)
Definition truthy (v : value) : bool :=
  match v with
  | VUndefined | VNull => false
  | VBool b => b
  | VNum (NFin z) => negb (z =? 0)%Z
  | VNum NNaN => false
  | VNum _ => true
  | VStr s => negb (String.eqb s "")
  | VDate _ | VObj _ | VArr _ => true
  end.

(** [typeof v === "number"] *)
Definition is_number (v : value) : bool :=
  match v with VNum _ => true | _ => false end.

(** [v ?? d] *)
Definition nullish (v d : value) : value :=
  match v with VUndefined | VNull => d | _ => v end.

(** ** Number arithmetic on integer-valued doubles *)

Definition num_sub (a b : number) : number :=
  match a, b with
  | NFin x, NFin y => NFin (x - y)
  | NNaN, _ | _, NNaN => NNaN
  | NPosInf, NPosInf | NNegInf, NNegInf => NNaN
  | NPosInf, _ | _, NNegInf => NPosInf
  | NNegInf, _ | _, NPosInf => NNegInf
  end.

Definition num_add (a b : number) : number := num_sub a (num_sub (NFin 0) b).

(** [x === y] on numbers: NaN is equal to nothing. *)
Definition num_eqb (a b : number) : bool :=
  match a, b with
  | NFin x, NFin y => (x =? y)%Z
  | NPosInf, NPosInf | NNegInf, NNegInf => true
  | _, _ => false
  end.

(** ** Number::toString (ECMA-262 6.1.6.1.20) on integers *)

(** Strip the trailing zeros of a digit string (the [k] digits of the
    exponent form). *)
Fixpoint strip_zeros_rev (l : list ascii) : list ascii :=
  match l with
  | "0"%char :: r => strip_zeros_rev r
  | _ => l
  end.

Definition strip_trailing_zeros (s : string) : string :=
  string_of_list_ascii (rev (strip_zeros_rev (rev (list_ascii_of_string s)))).

(** A non-negative integer: plain decimal below 10^21, otherwise the
    exponent form "d.ddde+k". *)
Definition nonneg_to_string (n : Z) : string :=
  if (n <? 10 ^ 21)%Z then dec n
  else
    let k := (ndigits n - 1)%nat in
    match strip_trailing_zeros (dec n) with
    | String d EmptyString => String d ("e+" ++ dec (Z.of_nat k))
    | String d rest => String d ("." ++ rest ++ "e+" ++ dec (Z.of_nat k))
    | EmptyString => "0"
    end.

Definition number_to_string (n : number) : string :=
  match n with
  | NNaN => "NaN"
  | NPosInf => "Infinity"
  | NNegInf => "-Infinity"
  | NFin z => if (z <? 0)%Z then "-" ++ nonneg_to_string (- z)%Z else nonneg_to_string z
  end.

(** ** ToString (ECMA-262 7.1.17) *)

Fixpoint join_comma (l : list string) : string :=
  match l with
  | [] => ""
  | [s] => s
  | s :: r => s ++ "," ++ join_comma r
  end.

Section ToString.
(** Date.prototype.toString names the host's time zone in an
    implementation-defined way; it is a parameter of the model. *)
Variable date_to_string : option Z -> string.

Fixpoint to_string (v : value) : string :=
  match v with
  | VUndefined => "undefined"
  | VNull => "null"
  | VBool true => "true"
  | VBool false => "false"
  | VNum n => number_to_string n
  | VStr s => s
  | VDate tv => date_to_string tv
  | VObj _ => "[object Object]"
  | VArr elems =>
      (* Array.prototype.join: null and undefined elements print as "" *)
      join_comma
        ((fix go (l : list value) : list string :=
            match l with
            | [] => []
            | (VUndefined | VNull) :: r => "" :: go r
            | x :: r => to_string x :: go r
            end) elems)
  end.
End ToString.

(** ** Strict equality on primitives (the helpers compare only strings
    and numbers with [===]). *)
Definition strict_eq_prim (a b : value) : bool :=
  match a, b with
  | VUndefined, VUndefined | VNull, VNull => true
  | VBool x, VBool y => Bool.eqb x y
  | VNum x, VNum y => num_eqb x y
  | VStr x, VStr y => String.eqb x y
  | _, _ => false
  end.

(** ** Property access [v[key]] (GetV) *)

Fixpoint lookup_prop (props : list (string * value)) (key : string) : value :=
  match props with
  | [] => VUndefined
  | (k, x) :: r => if String.eqb k key then x else lookup_prop r key
  end.

(** A canonical array index: a decimal numeral without leading zeros. *)
Definition array_index (key : string) : option nat :=
  match take_digits (String.length key) 0 key with
  | Some (i, EmptyString) =>
      if (0 <? String.length key)%nat && String.eqb (dec i) key
      then Some (Z.to_nat i) else None
  | _ => None
  end.

Definition get_prop (v : value) (key : string) : completion value :=
  match v with
  | VUndefined | VNull =>
      Throw (TypeError ("Cannot read properties of " ++
                        (if v is VNull then "null" else "undefined")))
  | VObj props => Normal (lookup_prop props key)
  | VArr elems =>
      if String.eqb key "length" then Normal (VNum (NFin (Z.of_nat (length elems))))
      else match array_index key with
           | Some i => Normal (nth i elems VUndefined)
           | None => Normal VUndefined
           end
  | VStr s =>
      if String.eqb key "length" then Normal (VNum (NFin (Z.of_nat (String.length s))))
      else match array_index key with
           | Some i =>
               match String.get i s with
               | Some c => Normal (VStr (String c EmptyString))
               | None => Normal VUndefined
               end
           | None => Normal VUndefined
           end
  | VBool _ | VNum _ | VDate _ => Normal VUndefined
  end.

(** ** Facts shared by the components *)

Lemma truthy_false_cases (v : value) :
  truthy v = false ->
  v = VUndefined \/ v = VNull \/ v = VBool false \/ v = VNum (NFin 0) \/
  v = VNum NNaN \/ v = VStr "".
Proof.
  destruct v as [| |[]|[z| | |]|s| | |]; simpl; intros H; try discriminate; auto 7.
  - destruct (Z.eqb_spec z 0); simpl in H; [subst; auto 7 | discriminate].
  - destruct (String.eqb_spec s ""); simpl in H; [subst; auto 7 | discriminate].
Qed.

Lemma get_prop_obj (props : list (string * value)) (key : string) :
  get_prop (VObj props) key = Normal (lookup_prop props key).
Proof. reflexivity. Qed.

Lemma nullish_defined (v d : value) : v <> VUndefined -> v <> VNull -> nullish v d = v.
Proof. destruct v; simpl; congruence. Qed.

#[export] Hint Rewrite get_prop_obj : taskly_simpl.

(** Template literals print small non-negative integers in plain decimal. *)
Lemma number_to_string_small (z : Z) :
  0 <= z < 10 ^ 21 -> number_to_string (NFin z) = dec z.
Proof.
  intros H. unfold number_to_string, nonneg_to_string.
  destruct (Z.ltb_spec z 0); [lia|]. destruct (Z.ltb_spec z (10 ^ 21)); [reflexivity|lia].
Qed.
