(* ===== verification/EcmaDate.v ===== *)
(** * ECMA-262 time values and the Date methods the helpers call

    The date helpers of [src/src/lib/index.js] never do calendar arithmetic
    themselves: they call [new Date(x)], [getFullYear], [getMonth],
    [getDate], [getDay], [getTime], [setHours], [setDate], [Date.now] and
    compare Date objects with [<], [>=], [<=].  This file models those
    operations as ECMA-262 (section 21.4) defines them, on integer time
    values in milliseconds; [option Z] is a Date's [[DateValue]], [None]
    being NaN (an invalid date).

    Local time is the UTC time value shifted by a fixed offset [LocalTZA]
    (the af-ZA deployment runs at UTC+2 with no daylight saving time); the
    offset is a [Section] variable, so every operation depending on the time
    zone takes it as first argument.

    [YearFromTime] is specified as "the largest y with TimeFromYear y <= t";
    it is computed here from the 400-year-cycle estimate with one correction
    step, and [YearFromDay_spec]/[YearFromDay_unique] show it meets that
    specification.  [MakeDay] is the closed form of the specification's
    "find t with YearFromTime t = ym, MonthFromTime t = mn, DateFromTime t
    = 1"; [MakeDay_from_time] shows that it inverts the decomposition. *)

From Stdlib Require Import ZArith Lia String Ascii List Bool.
From S2P Require Import Prelude JsValue.
Import ListNotations.

Open Scope Z_scope.

Definition msPerDay : Z := 86400000.
Definition msPerHour : Z := 3600000.
Definition msPerMinute : Z := 60000.
Definition msPerSecond : Z := 1000.

(** ** Days and years (21.4.1.3 - 21.4.1.8) *)

Definition Day (t : Z) : Z := t / msPerDay.
Definition TimeWithinDay (t : Z) : Z := t mod msPerDay.

Definition DaysInYear (y : Z) : Z :=
  if negb (y mod 4 =? 0) then 365
  else if negb (y mod 100 =? 0) then 366
  else if negb (y mod 400 =? 0) then 365
  else 366.

Definition DayFromYear (y : Z) : Z :=
  365 * (y - 1970) + (y - 1969) / 4 - (y - 1901) / 100 + (y - 1601) / 400.

Definition TimeFromYear (y : Z) : Z := msPerDay * DayFromYear y.

(** The year of day number [d]: the estimate [1970 + 400 d / 146097]
    is off by at most one year ([year_estimate_bounds]). *)
Definition YearFromDay (d : Z) : Z :=
  let y := 1970 + (400 * d) / 146097 in
  if d <? DayFromYear y then y - 1
  else if DayFromYear (y + 1) <=? d then y + 1
  else y.

Definition YearFromTime (t : Z) : Z := YearFromDay (Day t).

Definition InLeapYear (t : Z) : Z := DaysInYear (YearFromTime t) - 365.

Definition DayWithinYear (t : Z) : Z := Day t - DayFromYear (YearFromTime t).

(** ** Months and dates (21.4.1.9 - 21.4.1.11) *)

(** The day of the year on which month [m] (0-based) starts, read off the
    ranges of MonthFromTime; [month_start 12 leap] is the year length. *)
Definition month_start (m leap : Z) : Z :=
  match m with
  | 0 => 0 | 1 => 31 | 2 => 59 + leap | 3 => 90 + leap
  | 4 => 120 + leap | 5 => 151 + leap | 6 => 181 + leap
  | 7 => 212 + leap | 8 => 243 + leap | 9 => 273 + leap
  | 10 => 304 + leap | 11 => 334 + leap | _ => 365 + leap
  end.

Definition MonthFromTime (t : Z) : Z :=
  let d := DayWithinYear t in
  let l := InLeapYear t in
  if d <? 31 then 0
  else if d <? 59 + l then 1
  else if d <? 90 + l then 2
  else if d <? 120 + l then 3
  else if d <? 151 + l then 4
  else if d <? 181 + l then 5
  else if d <? 212 + l then 6
  else if d <? 243 + l then 7
  else if d <? 273 + l then 8
  else if d <? 304 + l then 9
  else if d <? 334 + l then 10
  else 11.

Definition DateFromTime (t : Z) : Z :=
  DayWithinYear t - month_start (MonthFromTime t) (InLeapYear t) + 1.

Definition WeekDay (t : Z) : Z := (Day t + 4) mod 7.

(** ** Composition (21.4.1.27 - 21.4.1.31) *)

Definition MakeTime (hour min sec ms : Z) : Z :=
  hour * msPerHour + min * msPerMinute + sec * msPerSecond + ms.

Definition MakeDay (year month date : Z) : Z :=
  let ym := year + month / 12 in
  let mn := month mod 12 in
  DayFromYear ym + month_start mn (DaysInYear ym - 365) + date - 1.

Definition MakeDate (day time : Z) : Z := day * msPerDay + time.

Definition maxTime : Z := 8640000000000000.

Definition TimeClip (t : Z) : option Z :=
  if Z.abs t <=? maxTime then Some t else None.

(** ** Calendar facts *)

Lemma DayFromYear_succ (y : Z) : DayFromYear (y + 1) = DayFromYear y + DaysInYear y.
Proof.
  unfold DayFromYear, DaysInYear.
  replace (y + 1 - 1969) with (y - 1969 + 1) by lia.
  replace (y + 1 - 1901) with (y - 1901 + 1) by lia.
  replace (y + 1 - 1601) with (y - 1601 + 1) by lia.
  rewrite (div_succ (y - 1969) 4), (div_succ (y - 1901) 100),
    (div_succ (y - 1601) 400) by lia.
  replace (y - 1969 + 1) with (y + (-492) * 4) by lia.
  replace (y - 1901 + 1) with (y + (-19) * 100) by lia.
  replace (y - 1601 + 1) with (y + (-4) * 400) by lia.
  rewrite !mod_shift by lia.
  destruct (Z.eqb_spec (y mod 4) 0), (Z.eqb_spec (y mod 100) 0),
    (Z.eqb_spec (y mod 400) 0); cbn [negb]; try lia;
    exfalso; Z.div_mod_to_equations; lia.
Qed.

Lemma DaysInYear_range (y : Z) : 365 <= DaysInYear y <= 366.
Proof.
  unfold DaysInYear.
  destruct (y mod 4 =? 0), (y mod 100 =? 0), (y mod 400 =? 0); cbn; lia.
Qed.

(** [DayFromYear] stays within 1.5 days of the mean Gregorian year. *)
Lemma DayFromYear_approx (y : Z) :
  -600 <= 400 * DayFromYear y - 146097 * (y - 1970) <= 600.
Proof.
  unfold DayFromYear.
  tk_divmod (y - 1969) 4. tk_divmod (y - 1901) 100. tk_divmod (y - 1601) 400.
  lia.
Qed.

Lemma DayFromYear_lt (y1 y2 : Z) : y1 < y2 -> DayFromYear y1 < DayFromYear y2.
Proof.
  intros H. pose proof (DayFromYear_approx y1). pose proof (DayFromYear_approx y2). lia.
Qed.

Lemma DayFromYear_le (y1 y2 : Z) : y1 <= y2 -> DayFromYear y1 <= DayFromYear y2.
Proof.
  intros H. destruct (Z.eq_dec y1 y2) as [->|]; [lia|].
  pose proof (DayFromYear_lt y1 y2 ltac:(lia)). lia.
Qed.

Lemma year_estimate_bounds (d : Z) :
  DayFromYear (1970 + (400 * d) / 146097 - 1) <= d
  < DayFromYear (1970 + (400 * d) / 146097 + 2).
Proof.
  set (q := (400 * d) / 146097).
  pose proof (Z.div_mod (400 * d) 146097 ltac:(lia)).
  pose proof (Z.mod_pos_bound (400 * d) 146097 ltac:(lia)).
  pose proof (DayFromYear_approx (1970 + q - 1)).
  pose proof (DayFromYear_approx (1970 + q + 2)).
  fold q in H. lia.
Qed.

(** [YearFromDay] meets the specification of YearFromTime ... *)
Lemma YearFromDay_spec (d : Z) :
  DayFromYear (YearFromDay d) <= d < DayFromYear (YearFromDay d + 1).
Proof.
  unfold YearFromDay. pose proof (year_estimate_bounds d) as B.
  set (y := 1970 + 400 * d / 146097) in *.
  destruct (Z.ltb_spec d (DayFromYear y)).
  - replace (y - 1 + 1) with y by lia. lia.
  - destruct (Z.leb_spec (DayFromYear (y + 1)) d); [|lia].
    replace (y + 1 + 1) with (y + 2) by lia. lia.
Qed.

(** ... and is the only year that does. *)
Lemma YearFromDay_unique (d y : Z) :
  DayFromYear y <= d < DayFromYear (y + 1) -> YearFromDay d = y.
Proof.
  intros H. pose proof (YearFromDay_spec d) as S.
  destruct (Z.lt_trichotomy (YearFromDay d) y) as [L|[E|L]]; [|exact E|].
  - pose proof (DayFromYear_le (YearFromDay d + 1) y ltac:(lia)). lia.
  - pose proof (DayFromYear_le (y + 1) (YearFromDay d) ltac:(lia)). lia.
Qed.

Lemma Day_of_day (D r : Z) : 0 <= r < msPerDay -> Day (D * msPerDay + r) = D.
Proof. intros. unfold Day. apply div_mul_add; unfold msPerDay in *; lia. Qed.

Lemma Day_mul (D : Z) : Day (D * msPerDay) = D.
Proof. unfold Day. apply Z.div_mul. unfold msPerDay. lia. Qed.

Lemma TimeWithinDay_of_day (D r : Z) :
  0 <= r < msPerDay -> TimeWithinDay (D * msPerDay + r) = r.
Proof. intros. unfold TimeWithinDay. apply mod_mul_add; unfold msPerDay in *; lia. Qed.

Lemma time_decompose (t : Z) : t = Day t * msPerDay + TimeWithinDay t /\
                                0 <= TimeWithinDay t < msPerDay.
Proof. unfold Day, TimeWithinDay, msPerDay. tk_divmod t 86400000. lia. Qed.

#[export] Hint Rewrite Day_of_day TimeWithinDay_of_day using (unfold msPerDay; lia) : taskly_simpl.

Lemma InLeapYear_range (t : Z) : 0 <= InLeapYear t <= 1.
Proof. unfold InLeapYear. pose proof (DaysInYear_range (YearFromTime t)). lia. Qed.

Lemma DayWithinYear_range (t : Z) : 0 <= DayWithinYear t < 365 + InLeapYear t.
Proof.
  unfold DayWithinYear, InLeapYear, YearFromTime.
  pose proof (YearFromDay_spec (Day t)).
  rewrite DayFromYear_succ in H. lia.
Qed.

(** The month found by MonthFromTime brackets the day of the year. *)
Lemma MonthFromTime_spec (t : Z) :
  0 <= MonthFromTime t <= 11 /\
  month_start (MonthFromTime t) (InLeapYear t) <= DayWithinYear t
  < month_start (MonthFromTime t + 1) (InLeapYear t).
Proof.
  pose proof (DayWithinYear_range t). pose proof (InLeapYear_range t).
  unfold MonthFromTime.
  set (d := DayWithinYear t) in *. set (l := InLeapYear t) in *.
  repeat match goal with
         | |- context [if ?a <? ?b then _ else _] => destruct (Z.ltb_spec a b)
         end; tk_fold_consts; cbv beta iota delta [month_start]; lia.
Qed.

Lemma DateFromTime_range (t : Z) : 1 <= DateFromTime t <= 31.
Proof.
  pose proof (MonthFromTime_spec t) as [HM HB]. pose proof (InLeapYear_range t).
  unfold DateFromTime.
  assert (MonthFromTime t = 0 \/ MonthFromTime t = 1 \/ MonthFromTime t = 2 \/
          MonthFromTime t = 3 \/ MonthFromTime t = 4 \/ MonthFromTime t = 5 \/
          MonthFromTime t = 6 \/ MonthFromTime t = 7 \/ MonthFromTime t = 8 \/
          MonthFromTime t = 9 \/ MonthFromTime t = 10 \/ MonthFromTime t = 11)
    as HC by lia.
  repeat destruct HC as [HC|HC]; rewrite HC in *; revert HB; tk_fold_consts;
    cbv beta iota delta [month_start]; lia.
Qed.

(** MakeDay inverts the decomposition of a time value into year, month
    and date, for any shift [k] of the date. *)
Lemma MakeDay_from_time (t k : Z) :
  MakeDay (YearFromTime t) (MonthFromTime t) (DateFromTime t + k) = Day t + k.
Proof.
  pose proof (MonthFromTime_spec t) as [HM _].
  unfold MakeDay, DateFromTime, DayWithinYear, InLeapYear.
  rewrite (Z.div_small (MonthFromTime t) 12), (Z.mod_small (MonthFromTime t) 12) by lia.
  rewrite Z.add_0_r. lia.
Qed.

(** ** NaN-aware comparisons of time values and numbers *)

(** [a < b], [a <= b], [a >= b] on two Dates: both are converted to their
    time values; a comparison with NaN is false. *)
Definition tv_lt (a b : option Z) : bool :=
  match a, b with Some x, Some y => x <? y | _, _ => false end.
Definition tv_le (a b : option Z) : bool :=
  match a, b with Some x, Some y => x <=? y | _, _ => false end.
Definition tv_ge (a b : option Z) : bool := tv_le b a.

(** [x === y] on two numbers that may be NaN. *)
Definition num_opt_eqb (a b : option Z) : bool :=
  match a, b with Some x, Some y => x =? y | _, _ => false end.

Definition num_of_opt (n : option Z) : number :=
  match n with Some z => NFin z | None => NNaN end.

(** ** ISO date-time strings (21.4.1.32, 21.4.3.2) *)

Definition expect (c : ascii) (s : string) : option string :=
  match s with
  | String c' r => if Ascii.eqb c c' then Some r else None
  | EmptyString => None
  end.

(** [YYYY], [YYYY-MM] or [YYYY-MM-DD]; a missing month or day is 1. *)
Definition parse_date (s : string) : option (Z * Z * Z * string) :=
  let? (y, r1) := take_digits 4 0 s in
  match expect "-" r1 with
  | None => Some (y, 1, 1, r1)
  | Some r2 =>
      let? (mo, r3) := take_digits 2 0 r2 in
      match expect "-" r3 with
      | None => Some (y, mo, 1, r3)
      | Some r4 =>
          let? (d, r5) := take_digits 2 0 r4 in
          Some (y, mo, d, r5)
      end
  end.

(** [HH:mm], [HH:mm:ss] or [HH:mm:ss.sss]. *)
Definition parse_time (s : string) : option (Z * Z * Z * Z * string) :=
  let? (h, r1) := take_digits 2 0 s in
  let? r2 := expect ":" r1 in
  let? (mi, r3) := take_digits 2 0 r2 in
  match expect ":" r3 with
  | None => Some (h, mi, 0, 0, r3)
  | Some r4 =>
      let? (sec, r5) := take_digits 2 0 r4 in
      match expect "." r5 with
      | None => Some (h, mi, sec, 0, r5)
      | Some r6 =>
          let? (ms, r7) := take_digits 3 0 r6 in
          Some (h, mi, sec, ms, r7)
      end
  end.

(** [Z] or [+HH:mm] / [-HH:mm], closing the string: the offset of the
    written time from UTC, in milliseconds. *)
Definition parse_offset (s : string) : option Z :=
  match s with
  | String c r =>
      if Ascii.eqb c "Z" then (if r is EmptyString then Some 0 else None)
      else
        let? sign := (if Ascii.eqb c "+" then Some 1
                      else if Ascii.eqb c "-" then Some (-1) else None) in
        let? (h, r1) := take_digits 2 0 r in
        let? r2 := expect ":" r1 in
        let? (mi, r3) := take_digits 2 0 r2 in
        if (String.eqb r3 EmptyString) && (h <=? 23) && (mi <=? 59)
        then Some (sign * (h * msPerHour + mi * msPerMinute)) else None
  | EmptyString => None
  end.

Definition valid_date_fields (mo d : Z) : bool :=
  (1 <=? mo) && (mo <=? 12) && (1 <=? d) && (d <=? 31).

Definition valid_time_fields (h mi sec ms : Z) : bool :=
  (h <=? 24) && (mi <=? 59) && (sec <=? 59) &&
  (negb (h =? 24) || ((mi =? 0) && (sec =? 0) && (ms =? 0))).

(** ** Local time and the Date methods *)

Section LocalTime.
Variable LocalTZA : Z.

Definition LocalTime (t : Z) : Z := t + LocalTZA.
Definition UTC (t : Z) : Z := t - LocalTZA.

Definition getFullYear (tv : option Z) : option Z :=
  option_map (fun t => YearFromTime (LocalTime t)) tv.
Definition getMonth (tv : option Z) : option Z :=
  option_map (fun t => MonthFromTime (LocalTime t)) tv.
Definition getDate (tv : option Z) : option Z :=
  option_map (fun t => DateFromTime (LocalTime t)) tv.
Definition getDay (tv : option Z) : option Z :=
  option_map (fun t => WeekDay (LocalTime t)) tv.
Definition getTime (tv : option Z) : option Z := tv.

(** [d.setHours(0, 0, 0, 0)]: the new time value of [d]. *)
Definition setHours0 (tv : option Z) : option Z :=
  match tv with
  | None => None
  | Some t =>
      let lt := LocalTime t in
      TimeClip (UTC (MakeDate (Day lt) (MakeTime 0 0 0 0)))
  end.

(** [d.setDate(dt)]: the new time value of [d]. *)
Definition setDate (tv : option Z) (dt : option Z) : option Z :=
  match tv, dt with
  | Some t, Some dt =>
      let lt := LocalTime t in
      let newDate := MakeDate (MakeDay (YearFromTime lt) (MonthFromTime lt) dt)
                              (TimeWithinDay lt) in
      TimeClip (UTC newDate)
  | _, _ => None
  end.

(** Date.parse on the Date Time String Format: date-only forms are UTC,
    date-time forms without an offset are local time.  Strings outside
    the format give NaN here; engines may accept more (see the header). *)
Definition parse_iso (s : string) : option Z :=
  let? (y, mo, d, r) := parse_date s in
  if negb (valid_date_fields mo d) then None else
  let day := MakeDay y (mo - 1) d in
  match r with
  | EmptyString => TimeClip (MakeDate day 0)
  | String c r' =>
      if negb (Ascii.eqb c "T") then None else
      let? (h, mi, sec, ms, r2) := parse_time r' in
      if negb (valid_time_fields h mi sec ms) then None else
      let t := MakeDate day (MakeTime h mi sec ms) in
      match r2 with
      | EmptyString => TimeClip (UTC t)
      | _ => let? off := parse_offset r2 in TimeClip (t - off)
      end
  end.

(** [new Date(v)] with one argument (21.4.2.1): a Date is copied, a
    string parsed, anything else converted to a number; then TimeClip.
    A plain object converts to "[object Object]", an array to the join
    of its elements; neither is in the Date Time String Format unless
    the array joins to one. *)
Definition ToDate (v : value) : option Z :=
  match v with
  | VDate tv => tv
  | VStr s => parse_iso s
  | VNum (NFin z) => TimeClip z
  | VNum _ => None
  | VBool b => Some (if b then 1 else 0)
  | VNull => Some 0
  | VUndefined => None
  | VObj _ => None
  | VArr _ => parse_iso (to_string (fun _ => "Invalid Date"%string) v)
  end.
End LocalTime.

(** ** Facts about the Date methods *)

(** The local calendar day of a time value. *)
Definition LocalDay (tz t : Z) : Z := Day (LocalTime tz t).

(** [d.setDate(d.getDate() + k)] moves [d] by [k] whole days. *)
Lemma setDate_shift (tz t k : Z) :
  setDate tz (Some t) (Some (DateFromTime (LocalTime tz t) + k)) = TimeClip (t + k * msPerDay).
Proof.
  unfold setDate, MakeDate, UTC. rewrite MakeDay_from_time.
  pose proof (time_decompose (LocalTime tz t)). unfold LocalTime in *. f_equal. lia.
Qed.

(** [d.setHours(0, 0, 0, 0)] moves [d] to the start of its local day. *)
Lemma setHours0_day (tz t : Z) :
  setHours0 tz (Some t) = TimeClip (LocalDay tz t * msPerDay - tz).
Proof. unfold setHours0, LocalDay, MakeDate, MakeTime, UTC. f_equal. lia. Qed.

Lemma TimeClip_in (t : Z) : Z.abs t <= maxTime -> TimeClip t = Some t.
Proof. intros H. unfold TimeClip. destruct (Z.leb_spec (Z.abs t) maxTime); [reflexivity|lia]. Qed.

Lemma TimeClip_out (t : Z) : maxTime < Z.abs t -> TimeClip t = None.
Proof. intros H. unfold TimeClip. destruct (Z.leb_spec (Z.abs t) maxTime); [lia|reflexivity]. Qed.

(** A [YYYY-MM-DD] string, zero-padded field by field. *)
Definition iso_date_string (y m d : Z) : string :=
  (digits 4 y ++ String "-" (digits 2 m ++ String "-" (digits 2 d)))%string.

Lemma string_app_nil_r (s : string) : (s ++ EmptyString)%string = s.
Proof. induction s as [|c s IH]; simpl; [reflexivity | now rewrite IH]. Qed.

(** Date.parse reads a [YYYY-MM-DD] string as midnight UTC of that day. *)
Lemma parse_iso_date_only (tz y m d : Z) :
  0 <= y <= 9999 -> 1 <= m <= 12 -> 1 <= d <= 31 ->
  parse_iso tz (iso_date_string y m d) = TimeClip (MakeDay y (m - 1) d * msPerDay).
Proof.
  intros Hy Hm Hd. unfold parse_iso, parse_date, iso_date_string.
  rewrite (take_digits_digits 4 0 y). cbn [expect Ascii.eqb Bool.eqb].
  rewrite (take_digits_digits 2 0 m). cbn [expect Ascii.eqb Bool.eqb].
  rewrite <- (string_app_nil_r (digits 2 d)), (take_digits_digits 2 0 d).
  change (10 ^ Z.of_nat 4) with 10000. change (10 ^ Z.of_nat 2) with 100.
  rewrite !Z.mul_0_l, !Z.add_0_l.
  rewrite (Z.mod_small y), (Z.mod_small m), (Z.mod_small d) by lia.
  unfold valid_date_fields.
  destruct (Z.leb_spec 1 m), (Z.leb_spec m 12), (Z.leb_spec 1 d), (Z.leb_spec d 31);
    try lia. cbn [andb negb].
  unfold MakeDate. f_equal. lia.
Qed.

(** The year of a day lies between the years whose first days bracket it. *)
Lemma YearFromDay_bounds (a b d : Z) :
  DayFromYear a <= d < DayFromYear b -> a <= YearFromDay d < b.
Proof.
  intros H. pose proof (YearFromDay_spec d) as S. split.
  - destruct (Z.lt_ge_cases (YearFromDay d) a) as [L|L]; [|exact L].
    pose proof (DayFromYear_le (YearFromDay d + 1) a ltac:(lia)). lia.
  - destruct (Z.lt_ge_cases (YearFromDay d) b) as [L|L]; [exact L|].
    pose proof (DayFromYear_le b (YearFromDay d) L). lia.
Qed.

(** Midnight UTC of day [D] falls on local day [D] east of Greenwich ... *)
Lemma LocalDay_utc_midnight (tz D : Z) :
  0 <= tz < msPerDay -> LocalDay tz (D * msPerDay) = D.
Proof. intros H. unfold LocalDay, LocalTime. apply Day_of_day. exact H. Qed.

(** ... and on local day [D - 1] west of it. *)
Lemma LocalDay_utc_midnight_west (tz D : Z) :
  - msPerDay <= tz < 0 -> LocalDay tz (D * msPerDay) = D - 1.
Proof.
  intros H. unfold LocalDay, LocalTime.
  replace (D * msPerDay + tz) with ((D - 1) * msPerDay + (tz + msPerDay)) by lia.
  apply Day_of_day. lia.
Qed.
