(* ===== verification/Intl.v ===== *)
(** * Locale date formatting (ECMA-402) as the helpers use it

    [Date.prototype.toLocaleDateString(locale, options)] formats the local
    calendar date of a Date in a locale; on an invalid Date it returns
    "Invalid Date".  The helpers use two locales:
    - en-CA with default options ([formatDate]): ICU's short date pattern
      "y-MM-dd", modelled exactly by [en_CA_date];
    - af-ZA with three option bags ([displayDate], [displayDateShort]):
      modelled by the interface [AfZaFormat], whose three operations map a
      local calendar date to a string.  The theorems about the helpers
      hold for every instance; [cldr_af] is the instance built from the
      CLDR "af" data ("d MMM y", "MMM y", "d MMM" and the abbreviated month
      names), used to evaluate concrete examples.

    The round trip [en_CA_parse] is what [displayPrettyDate] relies on: it
    formats a date in en-CA and parses the result with [new Date]. *)

From Stdlib Require Import ZArith Lia String Ascii List Bool.
From S2P Require Import Prelude JsValue EcmaDate.
Import ListNotations.

Open Scope Z_scope.

(** A local calendar date; [c_month] is 0-based, as [getMonth] returns it. *)
Record civil := mk_civil { c_year : Z; c_month : Z; c_day : Z }.

Definition civil_of_local (lt : Z) : civil :=
  mk_civil (YearFromTime lt) (MonthFromTime lt) (DateFromTime lt).

(** ICU prints the year of the era: year 0 is 1 BC. *)
Definition era_year (y : Z) : Z := if 0 <? y then y else 1 - y.

(** ** en-CA *)

Definition en_CA_date (c : civil) : string :=
  (dec (era_year (c_year c)) ++ "-" ++ digits 2 (c_month c + 1) ++ "-" ++
   digits 2 (c_day c))%string.

(** [new Date(x).toLocaleDateString("en-CA")] on the time value [tv]. *)
Definition toLocaleDateString_en_CA (tz : Z) (tv : option Z) : string :=
  match tv with
  | None => "Invalid Date"%string
  | Some t => en_CA_date (civil_of_local (LocalTime tz t))
  end.

(** ** af-ZA *)

(** One operation per options bag of [src/src/lib/index.js]. *)
Class AfZaFormat := {
  af_dmy : civil -> string;  (** [{ year: "numeric", month: "short", day: "numeric" }] *)
  af_my : civil -> string;   (** [{ month: "short", year: "numeric" }] *)
  af_dm : civil -> string    (** [{ month: "short", day: "numeric" }] *)
}.

Definition af_month_short (m : Z) : string :=
  match m with
  | 0 => "Jan." | 1 => "Feb." | 2 => "Mrt." | 3 => "Apr." | 4 => "Mei"
  | 5 => "Jun." | 6 => "Jul." | 7 => "Aug." | 8 => "Sep." | 9 => "Okt."
  | 10 => "Nov." | _ => "Des."
  end%string.

#[export] Instance cldr_af : AfZaFormat := {
  af_dmy c := (dec (c_day c) ++ " " ++ af_month_short (c_month c) ++ " " ++
               dec (era_year (c_year c)))%string;
  af_my c := (af_month_short (c_month c) ++ " " ++ dec (era_year (c_year c)))%string;
  af_dm c := (dec (c_day c) ++ " " ++ af_month_short (c_month c))%string
}.

Section AfZa.
Context `{AfZaFormat}.

(** [d.toLocaleDateString("af-ZA", opts)] where [fmt] is the operation
    for [opts]. *)
Definition toLocaleDateString_af (tz : Z) (fmt : civil -> string) (tv : option Z) : string :=
  match tv with
  | None => "Invalid Date"%string
  | Some t => fmt (civil_of_local (LocalTime tz t))
  end.
End AfZa.

(** ** The en-CA round trip *)

(** Local days whose year has four digits. *)
Definition four_digit_day (d : Z) : Prop := DayFromYear 1000 <= d < DayFromYear 10000.

Lemma four_digit_year (lt : Z) :
  four_digit_day (Day lt) -> 1000 <= YearFromTime lt <= 9999.
Proof. intros H. pose proof (YearFromDay_bounds 1000 10000 (Day lt) H). unfold YearFromTime. lia. Qed.

Lemma en_CA_date_iso (lt : Z) :
  four_digit_day (Day lt) ->
  en_CA_date (civil_of_local lt) =
  iso_date_string (YearFromTime lt) (MonthFromTime lt + 1) (DateFromTime lt).
Proof.
  intros H. pose proof (four_digit_year lt H).
  unfold en_CA_date, iso_date_string, civil_of_local, era_year, dec. cbn [c_year c_month c_day].
  destruct (Z.ltb_spec 0 (YearFromTime lt)); [|lia].
  rewrite ndigits_four by lia. reflexivity.
Qed.

Lemma four_digit_day_iff (d : Z) : four_digit_day d <-> -354285 <= d < 2932897.
Proof. unfold four_digit_day. change (DayFromYear 1000) with (-354285).
  change (DayFromYear 10000) with 2932897. reflexivity. Qed.

Lemma four_digit_day_time (d : Z) : four_digit_day d -> Z.abs (d * msPerDay) <= maxTime.
Proof. rewrite four_digit_day_iff. unfold maxTime, msPerDay. lia. Qed.

(** Parsing the en-CA output gives midnight UTC of the formatted day. *)
Lemma en_CA_parse (tz lt : Z) :
  four_digit_day (Day lt) ->
  parse_iso tz (en_CA_date (civil_of_local lt)) = Some (Day lt * msPerDay).
Proof.
  intros H. rewrite en_CA_date_iso by exact H.
  pose proof (four_digit_year lt H). pose proof (MonthFromTime_spec lt) as [HM _].
  pose proof (DateFromTime_range lt).
  rewrite parse_iso_date_only by lia.
  replace (MonthFromTime lt + 1 - 1) with (MonthFromTime lt) by lia.
  rewrite <- (Z.add_0_r (DateFromTime lt)), MakeDay_from_time, Z.add_0_r.
  apply TimeClip_in, four_digit_day_time, H.
Qed.

(** Two local days with the same en-CA output are the same day. *)
Lemma en_CA_inj (lt1 lt2 : Z) :
  four_digit_day (Day lt1) -> four_digit_day (Day lt2) ->
  en_CA_date (civil_of_local lt1) = en_CA_date (civil_of_local lt2) -> Day lt1 = Day lt2.
Proof.
  intros H1 H2 E. pose proof (en_CA_parse 0 lt1 H1) as P1.
  rewrite E, en_CA_parse in P1 by exact H2. injection P1. unfold msPerDay. lia.
Qed.

(** The calendar date of a time value depends only on its day number. *)
Lemma civil_of_local_Day (t1 t2 : Z) : Day t1 = Day t2 -> civil_of_local t1 = civil_of_local t2.
Proof.
  intros E. unfold civil_of_local, DateFromTime, MonthFromTime, InLeapYear, DayWithinYear,
    YearFromTime.
  rewrite E. reflexivity.
Qed.

(** Closes [four_digit_day d] for a concrete day [d]. *)
Ltac solve_four_digit := unfold four_digit_day; vm_compute; split; congruence.

(** No en-CA date reads "Invalid Date": it starts with a digit. *)
Lemma en_CA_not_invalid (c : civil) : String.eqb (en_CA_date c) "Invalid Date" = false.
Proof.
  unfold en_CA_date, dec.
  destruct (digits_head (ndigits (era_year (c_year c))) (era_year (c_year c))) as (d & rest & E & Hd).
  { unfold ndigits. rewrite ndigits_fuel_step. destruct (_ <? 10); lia. }
  rewrite E. cbn [append]. apply String.eqb_neq. intros H. injection H as H _.
  apply (f_equal nat_of_ascii) in H. rewrite digit_char_code in H by exact Hd.
  change (nat_of_ascii "I") with 73%nat in H. lia.
Qed.
