(* ===== verification/DateFormat.v ===== *)
(** * [displayDate], [displayDateShort] and [formatDate]

    Models of [src/src/lib/index.js] lines 6-71.  Each helper reads its
    argument(s) with [!x] (ToBoolean), builds Dates with [new Date(x)]
    ([ToDate]), compares them through their getters with [===] (NaN never
    equal) and formats with [toLocaleDateString] in af-ZA or en-CA.

    The af-ZA formatter is a [Context] of the section: the theorems hold
    for every implementation of the three option bags, and the examples
    evaluate with the CLDR instance [cldr_af].  The time-zone offset [tz]
    of the host is the other section variable. *)

From Stdlib Require Import ZArith Lia String Ascii List Bool.
From S2P Require Import Prelude JsValue EcmaDate Intl.
Import ListNotations.

Open Scope Z_scope.
Open Scope string_scope.

Section DateFormat.
Context {fmt : AfZaFormat}.
Variable tz : Z.

(** [displayDate({ due_date, start_date })], lines 6-53. *)
Definition displayDate (a0 : list (string * value)) : string :=
  let due_date := lookup_prop a0 "due_date" in
  let start_date := lookup_prop a0 "start_date" in
  if negb (truthy due_date) then "" else
  if negb (truthy start_date) then toLocaleDateString_af tz af_dmy (ToDate tz due_date) else
  let startDate := ToDate tz start_date in
  let dueDate := ToDate tz due_date in
  let startYear := getFullYear tz startDate in
  let dueYear := getFullYear tz dueDate in
  let startMonth := getMonth tz startDate in
  let dueMonth := getMonth tz dueDate in
  (* Same date *)
  if num_opt_eqb (getTime startDate) (getTime dueDate) then
    toLocaleDateString_af tz af_dmy startDate else
  (* Same year and month *)
  if num_opt_eqb startYear dueYear && num_opt_eqb startMonth dueMonth then
    number_to_string (num_of_opt (getDate tz startDate)) ++ "-" ++
    number_to_string (num_of_opt (getDate tz dueDate)) ++ " " ++
    toLocaleDateString_af tz af_my startDate else
  (* Same year, different month *)
  if num_opt_eqb startYear dueYear then
    let startStr := toLocaleDateString_af tz af_dm startDate in
    let dueStr := toLocaleDateString_af tz af_dmy dueDate in
    startStr ++ " - " ++ dueStr else
  (* Different years *)
  let startStr := toLocaleDateString_af tz af_dmy startDate in
  let dueStr := toLocaleDateString_af tz af_dmy dueDate in
  startStr ++ " - " ++ dueStr.

(** [displayDateShort(date)], lines 55-62. *)
Definition displayDateShort (date : value) : string :=
  if negb (truthy date) then "" else toLocaleDateString_af tz af_dm (ToDate tz date).

(** [formatDate(date)], lines 67-71: the number 0 or a string. *)
Definition formatDate (date : value) : value :=
  if negb (truthy date) then VNum (NFin 0)
  else VStr (toLocaleDateString_en_CA tz (ToDate tz date)).
End DateFormat.

(** ** Theorems *)

Section DateFormatFacts.
Context {fmt : AfZaFormat}.
Variable tz : Z.

(** The arguments of one call: [a0] holds [due] and [start]. *)
Variables (a0 : list (string * value)) (due start : value).
Hypothesis Hdue : lookup_prop a0 "due_date" = due.
Hypothesis Hstart : lookup_prop a0 "start_date" = start.

Lemma displayDate_unfold :
  displayDate tz a0 =
  if negb (truthy due) then "" else
  if negb (truthy start) then toLocaleDateString_af tz af_dmy (ToDate tz due) else
  if num_opt_eqb (ToDate tz start) (ToDate tz due) then
    toLocaleDateString_af tz af_dmy (ToDate tz start) else
  if num_opt_eqb (getFullYear tz (ToDate tz start)) (getFullYear tz (ToDate tz due)) &&
     num_opt_eqb (getMonth tz (ToDate tz start)) (getMonth tz (ToDate tz due)) then
    number_to_string (num_of_opt (getDate tz (ToDate tz start))) ++ "-" ++
    number_to_string (num_of_opt (getDate tz (ToDate tz due))) ++ " " ++
    toLocaleDateString_af tz af_my (ToDate tz start) else
  if num_opt_eqb (getFullYear tz (ToDate tz start)) (getFullYear tz (ToDate tz due)) then
    toLocaleDateString_af tz af_dm (ToDate tz start) ++ " - " ++
    toLocaleDateString_af tz af_dmy (ToDate tz due) else
  toLocaleDateString_af tz af_dmy (ToDate tz start) ++ " - " ++
  toLocaleDateString_af tz af_dmy (ToDate tz due).
Proof. unfold displayDate. rewrite Hdue, Hstart. reflexivity. Qed.

Hypothesis Hdue_t : truthy due = true.
Hypothesis Hstart_t : truthy start = true.

(** The branch taken once both dates are valid and distinct. *)
Lemma displayDate_two_dates (ts td : Z) :
  ToDate tz start = Some ts -> ToDate tz due = Some td -> ts <> td ->
  displayDate tz a0 =
  let cs := civil_of_local (LocalTime tz ts) in
  let cd := civil_of_local (LocalTime tz td) in
  if (c_year cs =? c_year cd)%Z && (c_month cs =? c_month cd)%Z then
    dec (c_day cs) ++ "-" ++ dec (c_day cd) ++ " " ++ af_my cs
  else if (c_year cs =? c_year cd)%Z then af_dm cs ++ " - " ++ af_dmy cd
  else af_dmy cs ++ " - " ++ af_dmy cd.
Proof.
  intros Hs Hd Hne. rewrite displayDate_unfold, Hdue_t, Hstart_t, Hs, Hd.
  cbn [negb num_opt_eqb getTime getFullYear getMonth getDate option_map num_of_opt
       toLocaleDateString_af civil_of_local c_year c_month c_day].
  destruct (Z.eqb_spec ts td) as [|_]; [contradiction|].
  pose proof (DateFromTime_range (LocalTime tz ts)).
  pose proof (DateFromTime_range (LocalTime tz td)).
  rewrite !number_to_string_small by lia. reflexivity.
Qed.
End DateFormatFacts.

Lemma formatDate_valid (tz : Z) (date : value) (t : Z) :
  truthy date = true -> ToDate tz date = Some t ->
  formatDate tz date = VStr (en_CA_date (civil_of_local (LocalTime tz t))).
Proof. intros Ht Hd. unfold formatDate. rewrite Ht, Hd. reflexivity. Qed.

(** The en-CA output of a valid date is a truthy string that parses back
    to midnight UTC of the date's local day. *)
Lemma formatDate_parse (tz : Z) (date : value) (t : Z) :
  truthy date = true -> ToDate tz date = Some t -> four_digit_day (LocalDay tz t) ->
  exists s, formatDate tz date = VStr s /\ truthy (VStr s) = true /\
            ToDate tz (VStr s) = Some (LocalDay tz t * msPerDay).
Proof.
  intros Ht Hd Hr. rewrite (formatDate_valid tz date t Ht Hd).
  eexists; split; [reflexivity|]. cbn [ToDate].
  rewrite en_CA_parse by exact Hr. split; [|reflexivity].
  unfold truthy, en_CA_date. destruct (dec _); reflexivity.
Qed.

(** C22: without a due date (a falsy [due_date]),
    [displayDate] returns the empty string, whatever the start date. *)
Theorem displayDate_no_due `{AfZaFormat} (tz : Z) (a0 : list (string * value)) :
  truthy (lookup_prop a0 "due_date") = false -> displayDate tz a0 = "".
Proof. intros H0. unfold displayDate. rewrite H0. reflexivity. Qed.

Definition sample_tz : Z := 7200000.

Lemma displayDate_no_due_witness :
  displayDate sample_tz [("due_date", VNull); ("start_date", VStr "2024-03-01")] = "".
Proof. apply displayDate_no_due. reflexivity. Defined.

(** C19: with a due date and no start date,
    [displayDate] is the due date alone in the [year/month/day] format. *)
Theorem displayDate_no_start `{AfZaFormat} (tz : Z) (a0 : list (string * value)) :
  truthy (lookup_prop a0 "due_date") = true ->
  truthy (lookup_prop a0 "start_date") = false ->
  displayDate tz a0 = toLocaleDateString_af tz af_dmy (ToDate tz (lookup_prop a0 "due_date")).
Proof. intros H1 H2. unfold displayDate. rewrite H1, H2. reflexivity. Qed.

Lemma displayDate_no_start_witness :
  displayDate sample_tz [("due_date", VStr "2024-03-15"); ("start_date", VStr "")] =
  "15 Mrt. 2024".
Proof. rewrite displayDate_no_start by reflexivity. vm_compute. reflexivity. Defined.

(** C20: when the start and due dates are the same
    valid instant, [displayDate] prints exactly what it prints for the due
    date alone (an object without [start_date]). *)
Theorem displayDate_same_instant `{AfZaFormat} (tz : Z) (a0 : list (string * value)) (t : Z) :
  truthy (lookup_prop a0 "due_date") = true ->
  truthy (lookup_prop a0 "start_date") = true ->
  ToDate tz (lookup_prop a0 "start_date") = Some t ->
  ToDate tz (lookup_prop a0 "due_date") = Some t ->
  displayDate tz a0 = displayDate tz [("due_date", lookup_prop a0 "due_date")].
Proof.
  intros H1 H2 Hs Hd. rewrite (displayDate_unfold tz a0 _ _ eq_refl eq_refl).
  rewrite (displayDate_unfold tz [("due_date", lookup_prop a0 "due_date")]
             (lookup_prop a0 "due_date") VUndefined eq_refl eq_refl).
  rewrite H1, H2, Hs, Hd. cbn [negb truthy num_opt_eqb]. rewrite Z.eqb_refl. reflexivity.
Qed.

Lemma displayDate_same_instant_witness :
  displayDate sample_tz [("due_date", VStr "2024-03-15"); ("start_date", VStr "2024-03-15")] =
  displayDate sample_tz [("due_date", VStr "2024-03-15")].
Proof.
  refine (displayDate_same_instant sample_tz
            [("due_date", VStr "2024-03-15"); ("start_date", VStr "2024-03-15")]
            1710460800000 _ _ _ _); vm_compute; reflexivity.
Defined.

(** C10: for two distinct valid dates in the same
    local year and month, [displayDate] prints "D1-D2 " followed by the
    start date's month and year. *)
Theorem displayDate_same_month `{AfZaFormat} (tz : Z) (a0 : list (string * value)) (ts td : Z) :
  truthy (lookup_prop a0 "due_date") = true ->
  truthy (lookup_prop a0 "start_date") = true ->
  ToDate tz (lookup_prop a0 "start_date") = Some ts ->
  ToDate tz (lookup_prop a0 "due_date") = Some td -> ts <> td ->
  YearFromTime (LocalTime tz ts) = YearFromTime (LocalTime tz td) ->
  MonthFromTime (LocalTime tz ts) = MonthFromTime (LocalTime tz td) ->
  displayDate tz a0 =
  dec (DateFromTime (LocalTime tz ts)) ++ "-" ++ dec (DateFromTime (LocalTime tz td)) ++ " " ++
  af_my (civil_of_local (LocalTime tz ts)).
Proof.
  intros H1 H2 Hs Hd Hne Hy Hm.
  rewrite (displayDate_two_dates tz a0 _ _ eq_refl eq_refl H1 H2 ts td Hs Hd Hne).
  cbn [civil_of_local c_year c_month c_day]. rewrite Hy, Hm, !Z.eqb_refl. reflexivity.
Qed.

Lemma displayDate_same_month_witness :
  displayDate sample_tz [("due_date", VStr "2024-03-15"); ("start_date", VStr "2024-03-01")] =
  "1-15 Mrt. 2024".
Proof.
  rewrite (displayDate_same_month sample_tz _ 1709251200000 1710460800000);
    try (vm_compute; reflexivity); try discriminate.
Defined.

(** C11: for valid dates in the same local year but
    different months, [displayDate] prints the start as "day month" and
    the due date in full, joined by " - ". *)
Theorem displayDate_same_year `{AfZaFormat} (tz : Z) (a0 : list (string * value)) (ts td : Z) :
  truthy (lookup_prop a0 "due_date") = true ->
  truthy (lookup_prop a0 "start_date") = true ->
  ToDate tz (lookup_prop a0 "start_date") = Some ts ->
  ToDate tz (lookup_prop a0 "due_date") = Some td ->
  YearFromTime (LocalTime tz ts) = YearFromTime (LocalTime tz td) ->
  MonthFromTime (LocalTime tz ts) <> MonthFromTime (LocalTime tz td) ->
  displayDate tz a0 =
  af_dm (civil_of_local (LocalTime tz ts)) ++ " - " ++ af_dmy (civil_of_local (LocalTime tz td)).
Proof.
  intros H1 H2 Hs Hd Hy Hm.
  assert (Hne : ts <> td) by (intros ->; contradiction).
  rewrite (displayDate_two_dates tz a0 _ _ eq_refl eq_refl H1 H2 ts td Hs Hd Hne).
  cbn [civil_of_local c_year c_month c_day]. rewrite Hy, Z.eqb_refl.
  destruct (Z.eqb_spec (MonthFromTime (LocalTime tz ts)) (MonthFromTime (LocalTime tz td)));
    [contradiction | reflexivity].
Qed.

Lemma displayDate_same_year_witness :
  displayDate sample_tz [("due_date", VStr "2024-04-01"); ("start_date", VStr "2024-03-01")] =
  "1 Mrt. - 1 Apr. 2024".
Proof.
  rewrite (displayDate_same_year sample_tz _ 1709251200000 1711929600000);
    try (vm_compute; reflexivity); discriminate.
Defined.

(** C12: for valid dates in different local
    years, [displayDate] prints both dates in full, joined by " - ". *)
Theorem displayDate_different_years `{AfZaFormat} (tz : Z) (a0 : list (string * value)) (ts td : Z) :
  truthy (lookup_prop a0 "due_date") = true ->
  truthy (lookup_prop a0 "start_date") = true ->
  ToDate tz (lookup_prop a0 "start_date") = Some ts ->
  ToDate tz (lookup_prop a0 "due_date") = Some td ->
  YearFromTime (LocalTime tz ts) <> YearFromTime (LocalTime tz td) ->
  displayDate tz a0 =
  af_dmy (civil_of_local (LocalTime tz ts)) ++ " - " ++ af_dmy (civil_of_local (LocalTime tz td)).
Proof.
  intros H1 H2 Hs Hd Hy.
  assert (Hne : ts <> td) by (intros ->; contradiction).
  rewrite (displayDate_two_dates tz a0 _ _ eq_refl eq_refl H1 H2 ts td Hs Hd Hne).
  cbn [civil_of_local c_year c_month c_day].
  destruct (Z.eqb_spec (YearFromTime (LocalTime tz ts)) (YearFromTime (LocalTime tz td)));
    [contradiction | reflexivity].
Qed.

Lemma displayDate_different_years_witness :
  displayDate sample_tz [("due_date", VStr "2024-01-01"); ("start_date", VStr "2023-12-31")] =
  "31 Des. 2023 - 1 Jan. 2024".
Proof.
  rewrite (displayDate_different_years sample_tz _ 1703980800000 1704067200000);
    try (vm_compute; reflexivity); discriminate.
Defined.

(** C21: when the start or the due date is a truthy
    value that is not a valid date, no branch detects it: the
    different-years branch prints both full dates and the invalid one
    reads "Invalid Date". *)
Theorem displayDate_invalid `{AfZaFormat} (tz : Z) (a0 : list (string * value)) :
  truthy (lookup_prop a0 "due_date") = true ->
  truthy (lookup_prop a0 "start_date") = true ->
  ToDate tz (lookup_prop a0 "start_date") = None \/ ToDate tz (lookup_prop a0 "due_date") = None ->
  displayDate tz a0 =
  toLocaleDateString_af tz af_dmy (ToDate tz (lookup_prop a0 "start_date")) ++ " - " ++
  toLocaleDateString_af tz af_dmy (ToDate tz (lookup_prop a0 "due_date")).
Proof.
  intros H1 H2 Hn. rewrite (displayDate_unfold tz a0 _ _ eq_refl eq_refl), H1, H2.
  destruct Hn as [Hn|Hn]; rewrite Hn; cbn [negb num_opt_eqb getFullYear getMonth option_map andb];
    [reflexivity|].
  destruct (ToDate tz (lookup_prop a0 "start_date")); reflexivity.
Qed.

Lemma displayDate_invalid_witness :
  displayDate sample_tz [("due_date", VStr "2024-01-01"); ("start_date", VStr "31/12/2023")] =
  "Invalid Date - 1 Jan. 2024".
Proof.
  rewrite displayDate_invalid; [vm_compute; reflexivity | reflexivity | reflexivity |].
  left. vm_compute. reflexivity.
Defined.

(** C18: [formatDate] returns a number (the
    number 0) exactly when its argument is falsy, and a string otherwise. *)
Theorem formatDate_number_iff_falsy (tz : Z) (date : value) :
  is_number (formatDate tz date) = negb (truthy date) /\
  (truthy date = false -> formatDate tz date = VNum (NFin 0)).
Proof. unfold formatDate. destruct (truthy date); split; easy. Qed.

(** The day of the en-CA output of a valid date, read back in a zone at
    or east of UTC, is the date's own local day. *)
Lemma formatDate_day_east (tz : Z) (date : value) (t : Z) :
  0 <= tz < msPerDay -> truthy date = true -> ToDate tz date = Some t ->
  four_digit_day (LocalDay tz t) ->
  exists s, formatDate tz date = VStr s /\ truthy (VStr s) = true /\
            exists t', ToDate tz (VStr s) = Some t' /\ LocalDay tz t' = LocalDay tz t.
Proof.
  intros Htz Ht Hd Hr. destruct (formatDate_parse tz date t Ht Hd Hr) as (s & E & Hs & P).
  exists s. split; [exact E|]. split; [exact Hs|]. eexists; split; [exact P|].
  apply LocalDay_utc_midnight, Htz.
Qed.

Lemma formatDate_same_day (tz : Z) (d1 d2 : value) (t1 t2 : Z) :
  truthy d1 = true -> ToDate tz d1 = Some t1 ->
  truthy d2 = true -> ToDate tz d2 = Some t2 ->
  LocalDay tz t1 = LocalDay tz t2 -> formatDate tz d1 = formatDate tz d2.
Proof.
  intros H1 E1 H2 E2 D. rewrite (formatDate_valid tz d1 t1 H1 E1), (formatDate_valid tz d2 t2 H2 E2).
  f_equal. f_equal. apply civil_of_local_Day, D.
Qed.

(** C4: in a time zone at or east of UTC (the app's
    UTC+2 included), formatting a valid date with a four-digit year and
    formatting the result again gives the same string: the en-CA output
    round-trips through [new Date]. *)
Theorem formatDate_idempotent (tz : Z) (date : value) (t : Z) :
  0 <= tz < msPerDay -> truthy date = true -> ToDate tz date = Some t ->
  four_digit_day (LocalDay tz t) ->
  formatDate tz (formatDate tz date) = formatDate tz date.
Proof.
  intros Htz Ht Hd Hr.
  destruct (formatDate_day_east tz date t Htz Ht Hd Hr) as (s & E & Hs & t' & P & D).
  rewrite E at 1. eapply formatDate_same_day; eauto.
Qed.

Lemma formatDate_idempotent_witness :
  formatDate sample_tz (formatDate sample_tz (VStr "2024-02-29T23:30")) =
  formatDate sample_tz (VStr "2024-02-29T23:30").
Proof.
  apply (formatDate_idempotent sample_tz _ 1709242200000);
    [unfold sample_tz, msPerDay; lia | reflexivity | vm_compute; reflexivity |].
  solve_four_digit.
Defined.

(** C9: in a time zone west of UTC, formatting a
    valid date and formatting the result again moves it one day back: the
    en-CA string "YYYY-MM-DD" is parsed as midnight UTC, which is the
    previous local day there. *)
Theorem formatDate_west_shift (tz : Z) (date : value) (t : Z) :
  - msPerDay <= tz < 0 -> truthy date = true -> ToDate tz date = Some t ->
  four_digit_day (LocalDay tz t - 1) -> four_digit_day (LocalDay tz t) ->
  formatDate tz (formatDate tz date) =
  VStr (en_CA_date (civil_of_local ((LocalDay tz t - 1) * msPerDay))) /\
  formatDate tz (formatDate tz date) <> formatDate tz date.
Proof.
  intros Htz Ht Hd Hr1 Hr.
  destruct (formatDate_parse tz date t Ht Hd Hr) as (s & E & Hs & P).
  rewrite E. rewrite (formatDate_valid tz (VStr s) _ Hs P).
  assert (Hc : civil_of_local (LocalTime tz (LocalDay tz t * msPerDay)) =
               civil_of_local ((LocalDay tz t - 1) * msPerDay)).
  { apply civil_of_local_Day. rewrite Day_mul.
    apply (LocalDay_utc_midnight_west tz (LocalDay tz t) Htz). }
  rewrite Hc. split; [reflexivity|].
  rewrite <- E, (formatDate_valid tz date t Ht Hd). intros C. injection C as C.
  apply en_CA_inj in C; [| rewrite Day_mul; exact Hr1 | exact Hr].
  rewrite Day_mul in C. unfold LocalDay in C. lia.
Qed.

Definition west_tz : Z := -18000000.

Lemma formatDate_west_shift_witness :
  formatDate west_tz (formatDate west_tz (VStr "2024-03-01")) = VStr "2024-02-28" /\
  formatDate west_tz (formatDate west_tz (VStr "2024-03-01")) <>
  formatDate west_tz (VStr "2024-03-01").
Proof.
  pose proof (formatDate_west_shift west_tz (VStr "2024-03-01") 1709251200000) as W.
  destruct W as [W1 W2];
    [unfold west_tz, msPerDay; lia | reflexivity | vm_compute; reflexivity
    | solve_four_digit
    | solve_four_digit |].
  split; [rewrite W1; vm_compute; reflexivity | exact W2].
Defined.

(** C24: in a time zone at or east of UTC, a
    date stored as its en-CA string is shown by [displayDateShort] as
    that same calendar day. *)
Theorem displayDateShort_stored_day `{AfZaFormat} (tz D : Z) :
  0 <= tz < msPerDay -> four_digit_day D ->
  displayDateShort tz (VStr (en_CA_date (civil_of_local (D * msPerDay)))) =
  af_dm (civil_of_local (D * msPerDay)).
Proof.
  intros Htz Hr. unfold displayDateShort.
  replace (truthy _) with true by (unfold truthy, en_CA_date; destruct (dec _); reflexivity).
  cbn [negb ToDate]. rewrite en_CA_parse by (rewrite Day_mul; exact Hr).
  rewrite Day_mul. cbn [toLocaleDateString_af]. f_equal.
  apply civil_of_local_Day. rewrite Day_mul. apply LocalDay_utc_midnight, Htz.
Qed.

Lemma displayDateShort_stored_day_witness :
  displayDateShort sample_tz (VStr "2024-03-01") = "1 Mrt.".
Proof.
  change (VStr "2024-03-01") with
    (VStr (en_CA_date (civil_of_local (19783 * msPerDay)))).
  rewrite displayDateShort_stored_day;
    [vm_compute; reflexivity | unfold sample_tz, msPerDay; lia |].
  solve_four_digit.
Defined.
