(* ===== verification/PrettyDate.v ===== *)
(** * [displayPrettyDate]: relative date labels

    Model of [src/src/lib/index.js] lines 77-123.  The function reads the
    host clock seven times ([new Date()] on lines 82, 87, 96, 106, 107 and
    [Date.now()] on lines 90, 93), once per reading, and only as far as it
    gets before returning.  The clock is therefore explicit state: a
    [Clock] computation receives the readings [clk : nat -> Z] (the i-th
    reading of the run) and threads the number of readings taken so far.
    A constant [clk] is the idealised run in which all readings fall in the
    same millisecond; other clocks describe runs that straddle a day
    boundary.

    [pretty_spec] states the specification of the labels (spec section
    4.4) on local day numbers; [displayPrettyDate_refines_spec] proves that
    the code implements it for a constant clock read at or after [tz]
    o'clock local time, and [displayPrettyDate_week_end_before_offset]
    shows that before that hour the end of the current week is mislabelled. *)

From Stdlib Require Import ZArith Lia String Ascii List Bool.
From S2P Require Import Prelude JsValue EcmaDate Intl DateFormat.
Import ListNotations.

Open Scope string_scope.
Open Scope Z_scope.

(** ** The clock monad *)

Definition Clock (A : Type) : Type := (nat -> Z) -> nat -> A * nat.

Definition cret {A : Type} (a : A) : Clock A := fun _ i => (a, i).

Definition cbind {A B : Type} (m : Clock A) (f : A -> Clock B) : Clock B :=
  fun clk i => let (a, j) := m clk i in f a clk j.

Notation "x <-- m ;; k" := (cbind m (fun x => k))
  (at level 61, m at next level, right associativity) : taskly_scope.

(** One reading of the clock: [Date.now()], or the time value of [new Date()]. *)
Definition read_clock : Clock Z := fun clk i => (clk i, S i).

(** The result of a run, and the number of readings it took. *)
Definition run {A : Type} (m : Clock A) (clk : nat -> Z) : A := fst (m clk O).
Definition reads {A : Type} (m : Clock A) (clk : nat -> Z) : nat := snd (m clk O).

(** NaN-propagating sum of two numbers. *)
Definition num_opt_add (a b : option Z) : option Z :=
  match a, b with Some x, Some y => Some (x + y) | _, _ => None end.

Definition msPerDayNumber : Z := 86400000.

Section PrettyDate.
Variable tz : Z.

(** [displayPrettyDate(date)], lines 77-123. *)
Definition displayPrettyDate (date : value) : Clock string :=
  if negb (truthy date) then cret "Geen datum" else
  (* Check if the date is in the past *)
  let date_obj := ToDate tz date in
  n0 <-- read_clock ;;
  let now := setHours0 tz (Some n0) in
  if tv_lt date_obj now then cret "Verby" else
  let date := formatDate tz date in
  n1 <-- read_clock ;;
  let today := formatDate tz (VDate (Some n1)) in
  if strict_eq_prim date today then cret "Vandag" else
  n2 <-- read_clock ;;
  let tomorrow := formatDate tz (VNum (num_add (NFin n2) (NFin msPerDayNumber))) in
  if strict_eq_prim date tomorrow then cret "Môre" else
  n3 <-- read_clock ;;
  let day_after_tomorrow :=
    formatDate tz (VNum (num_add (NFin n3) (NFin (2 * msPerDayNumber)))) in
  if strict_eq_prim date day_after_tomorrow then cret "Oormôre" else
  n4 <-- read_clock ;;
  let this_week_start :=
    setDate tz (Some n4) (num_opt_add (getDate tz (Some n4)) (option_map Z.opp (getDay tz (Some n4)))) in
  let this_week_end0 := ToDate tz (VDate this_week_start) in
  let this_week_end :=
    setDate tz this_week_end0 (num_opt_add (getDate tz this_week_end0) (Some 6)) in
  let inputDate := ToDate tz date in
  if tv_ge inputDate this_week_start && tv_le inputDate this_week_end then
    cret "Hierdie week" else
  n5 <-- read_clock ;;
  let currentMonth := getMonth tz (Some n5) in
  n6 <-- read_clock ;;
  let currentYear := getFullYear tz (Some n6) in
  let inputMonth := getMonth tz inputDate in
  let inputYear := getFullYear tz inputDate in
  if num_opt_eqb inputMonth currentMonth && num_opt_eqb inputYear currentYear then
    cret "Hierdie maand" else
  let nextMonth := option_map (fun m => Z.rem (m + 1) 12) currentMonth in
  let nextMonthYear :=
    if num_opt_eqb nextMonth (Some 0) then num_opt_add currentYear (Some 1) else currentYear in
  if num_opt_eqb inputMonth nextMonth && num_opt_eqb inputYear nextMonthYear then
    cret "Volgende maand" else
  cret "Later".
End PrettyDate.

(** ** The specification of the labels (spec section 4.4) *)

(** The month after [c]'s, as (year, month). *)
Definition next_month (c : civil) : Z * Z :=
  if c_month c =? 11 then (c_year c + 1, 0) else (c_year c, c_month c + 1).

(** The label of local day [D] seen on local day [N]. *)
Definition pretty_spec (N D : Z) : string :=
  let today := civil_of_local (N * msPerDay) in
  let day := civil_of_local (D * msPerDay) in
  let week_start := N - WeekDay (N * msPerDay) in
  if D <? N then "Verby"
  else if D =? N then "Vandag"
  else if D =? N + 1 then "Môre"
  else if D =? N + 2 then "Oormôre"
  else if (week_start <=? D) && (D <=? week_start + 6) then "Hierdie week"
  else if (c_year day =? c_year today) && (c_month day =? c_month today) then "Hierdie maand"
  else if (c_year day =? fst (next_month today)) && (c_month day =? snd (next_month today))
  then "Volgende maand"
  else "Later".

(** ** Facts about one run *)

(** The en-CA string of local day [d]. *)
Definition en_day (d : Z) : string := en_CA_date (civil_of_local (d * msPerDay)).

Lemma civil_of_local_LocalDay (tz t : Z) :
  civil_of_local (LocalTime tz t) = civil_of_local (LocalDay tz t * msPerDay).
Proof. apply civil_of_local_Day. rewrite Day_mul. reflexivity. Qed.

Lemma en_day_eqb (d1 d2 : Z) :
  four_digit_day d1 -> four_digit_day d2 -> String.eqb (en_day d1) (en_day d2) = (d1 =? d2).
Proof.
  intros H1 H2. unfold en_day.
  destruct (String.eqb_spec (en_CA_date (civil_of_local (d1 * msPerDay)))
                            (en_CA_date (civil_of_local (d2 * msPerDay)))) as [E|E];
    destruct (Z.eqb_spec d1 d2); subst; try reflexivity; [|congruence].
  apply en_CA_inj in E; rewrite ?Day_mul in *; auto. contradiction.
Qed.

Lemma en_day_truthy (d : Z) : truthy (VStr (en_day d)) = true.
Proof. unfold truthy, en_day, en_CA_date. destruct (dec _); reflexivity. Qed.

Lemma en_day_parse (tz d : Z) :
  four_digit_day d -> ToDate tz (VStr (en_day d)) = Some (d * msPerDay).
Proof. intros H. cbn [ToDate]. unfold en_day. rewrite en_CA_parse, Day_mul; [reflexivity|]. rewrite Day_mul. exact H. Qed.

(** "Invalid Date" is no en-CA date of a four-digit year. *)
Lemma en_day_not_invalid (tz d : Z) :
  four_digit_day d -> String.eqb (en_day d) "Invalid Date" = false.
Proof.
  intros H. destruct (String.eqb_spec (en_day d) "Invalid Date") as [E|]; [|reflexivity].
  pose proof (en_day_parse tz d H) as P. rewrite E in P. discriminate P.
Qed.

(** [formatDate] of a valid date is the en-CA string of its local day. *)
Lemma formatDate_en_day (tz : Z) (date : value) (t : Z) :
  truthy date = true -> ToDate tz date = Some t -> formatDate tz date = VStr (en_day (LocalDay tz t)).
Proof. intros H1 H2. rewrite (formatDate_valid tz date t H1 H2), civil_of_local_LocalDay. reflexivity. Qed.

Lemma four_digit_between (a b d : Z) :
  four_digit_day a -> four_digit_day b -> a <= d <= b -> four_digit_day d.
Proof. rewrite !four_digit_day_iff. lia. Qed.

(** Midnight UTC of day [D], read east of UTC, is in month and year of [D]. *)
Lemma getMonth_day (tz D : Z) :
  0 <= tz < msPerDay ->
  getMonth tz (Some (D * msPerDay)) = Some (c_month (civil_of_local (D * msPerDay))).
Proof.
  intros H. cbn [getMonth option_map].
  change (MonthFromTime (LocalTime tz (D * msPerDay)))
    with (c_month (civil_of_local (LocalTime tz (D * msPerDay)))).
  rewrite civil_of_local_LocalDay, LocalDay_utc_midnight by exact H.
  reflexivity.
Qed.

Lemma getFullYear_day (tz D : Z) :
  0 <= tz < msPerDay ->
  getFullYear tz (Some (D * msPerDay)) = Some (c_year (civil_of_local (D * msPerDay))).
Proof.
  intros H. cbn [getFullYear option_map].
  change (YearFromTime (LocalTime tz (D * msPerDay)))
    with (c_year (civil_of_local (LocalTime tz (D * msPerDay)))).
  rewrite civil_of_local_LocalDay, LocalDay_utc_midnight by exact H.
  reflexivity.
Qed.

Lemma num_opt_eqb_Some (a b : Z) : num_opt_eqb (Some a) (Some b) = (a =? b).
Proof. reflexivity. Qed.

(** Lines 115-118 compute the month after the current one. *)
Lemma next_month_code (c : civil) (im iy : Z) :
  0 <= c_month c <= 11 ->
  num_opt_eqb (Some im) (option_map (fun m => Z.rem (m + 1) 12) (Some (c_month c))) &&
  num_opt_eqb (Some iy)
    (if num_opt_eqb (option_map (fun m => Z.rem (m + 1) 12) (Some (c_month c))) (Some 0)
     then num_opt_add (Some (c_year c)) (Some 1) else Some (c_year c))
  = (iy =? fst (next_month c)) && (im =? snd (next_month c)).
Proof.
  intros H. cbn [num_opt_eqb option_map num_opt_add]. unfold next_month.
  destruct (Z.eqb_spec (c_month c) 11) as [E|E].
  - rewrite E. cbn. apply andb_comm.
  - rewrite Z.rem_small by lia. destruct (Z.eqb_spec (c_month c + 1) 0); [lia|].
    cbn [fst snd]. apply andb_comm.
Qed.

Lemma tv_ge_None_l (b : option Z) : tv_ge None b = false.
Proof. destruct b; reflexivity. Qed.

Lemma strict_eq_str (a b : string) : strict_eq_prim (VStr a) (VStr b) = String.eqb a b.
Proof. reflexivity. Qed.

(** Reduces the clock monad as far as the next test on a reading. *)
Ltac clock_step := cbv beta iota zeta delta [cbind read_clock cret negb fst].

Section OneRun.
Variables tz n : Z.
Hypothesis Htz : 0 <= tz < msPerDay.
Hypothesis Hn : 0 <= n.

(** [N] is the local day of the clock reading, [wd] its weekday. *)
Let N := LocalDay tz n.
Let wd := WeekDay (LocalTime tz n).

Hypothesis HN : four_digit_day N.
Hypothesis HN3 : four_digit_day (N + 3).

Lemma clock_decompose : n = N * msPerDay + TimeWithinDay (LocalTime tz n) - tz /\
                        0 <= TimeWithinDay (LocalTime tz n) < msPerDay.
Proof.
  pose proof (time_decompose (LocalTime tz n)) as [E R]. unfold N, LocalDay.
  unfold LocalTime in *. split; lia.
Qed.

Lemma clock_in_range (k : Z) : -7 <= k <= 7 -> Z.abs (n + k * msPerDay) <= maxTime.
Proof.
  intros Hk. pose proof clock_decompose as [E R].
  pose proof HN as H1. pose proof HN3 as H2. rewrite four_digit_day_iff in H1, H2.
  unfold maxTime, msPerDay in *. lia.
Qed.

Lemma LocalDay_clock_shift (k : Z) : LocalDay tz (n + k * msPerDay) = N + k.
Proof.
  pose proof clock_decompose as [E R]. unfold LocalDay, LocalTime.
  replace (n + k * msPerDay + tz) with ((N + k) * msPerDay + TimeWithinDay (LocalTime tz n)) by lia.
  apply Day_of_day. exact R.
Qed.

(** [now.setHours(0, 0, 0, 0)] and the test [date_obj < now]. *)
Lemma past_test (t : Z) :
  tv_lt (Some t) (setHours0 tz (Some n)) = (LocalDay tz t <? N).
Proof.
  rewrite setHours0_day. fold N. pose proof clock_decompose as [E R].
  rewrite TimeClip_in.
  - cbn [tv_lt]. pose proof (time_decompose (LocalTime tz t)) as [Et Rt].
    unfold LocalDay, LocalTime in *.
    destruct (Z.ltb_spec t (N * msPerDay - tz)), (Z.ltb_spec (Day (t + tz)) N); try reflexivity;
      exfalso; nia.
  - pose proof HN as H1. rewrite four_digit_day_iff in H1. unfold maxTime, msPerDay in *. lia.
Qed.

Lemma wd_range : 0 <= wd <= 6.
Proof. unfold wd, WeekDay. pose proof (Z.mod_pos_bound (Day (LocalTime tz n) + 4) 7). lia. Qed.

Lemma wd_day : wd = WeekDay (N * msPerDay).
Proof. unfold wd, WeekDay. rewrite Day_mul. reflexivity. Qed.

(** [formatDate(new Date())] *)
Lemma formatDate_clock : formatDate tz (VDate (Some n)) = VStr (en_day N).
Proof.
  rewrite (formatDate_valid tz (VDate (Some n)) n eq_refl eq_refl), civil_of_local_LocalDay.
  reflexivity.
Qed.

(** [formatDate(Date.now() + k * 86400000)] for [k] = 1, 2. *)
Lemma formatDate_clock_plus (k : Z) :
  1 <= k <= 2 -> formatDate tz (VNum (num_add (NFin n) (NFin (k * msPerDay)))) = VStr (en_day (N + k)).
Proof.
  intros Hk. cbn [num_add num_sub]. replace (n - (0 - k * msPerDay)) with (n + k * msPerDay) by lia.
  assert (Ht : truthy (VNum (NFin (n + k * msPerDay))) = true).
  { cbn [truthy]. destruct (Z.eqb_spec (n + k * msPerDay) 0); [unfold msPerDay in *; lia | reflexivity]. }
  rewrite (formatDate_valid tz _ (n + k * msPerDay) Ht).
  - rewrite civil_of_local_LocalDay, LocalDay_clock_shift. reflexivity.
  - cbn [ToDate]. apply TimeClip_in, clock_in_range. lia.
Qed.

(** [new Date()] followed by [setDate(getDate() - getDay())]. *)
Lemma week_start_value :
  setDate tz (Some n) (num_opt_add (getDate tz (Some n)) (option_map Z.opp (getDay tz (Some n))))
  = Some (n - wd * msPerDay).
Proof.
  cbn [getDate getDay option_map num_opt_add]. fold wd. pose proof wd_range.
  rewrite (setDate_shift tz n (- wd)), TimeClip_in; [f_equal; lia|].
  apply clock_in_range. lia.
Qed.

(** [new Date(this_week_start)] followed by [setDate(getDate() + 6)]. *)
Lemma week_end_value :
  let s := Some (n - wd * msPerDay) in
  setDate tz (ToDate tz (VDate s)) (num_opt_add (getDate tz (ToDate tz (VDate s))) (Some 6))
  = Some (n + (6 - wd) * msPerDay).
Proof.
  cbn [ToDate getDate option_map num_opt_add]. pose proof wd_range.
  rewrite setDate_shift, TimeClip_in; [f_equal; lia|].
  replace (n - wd * msPerDay + 6 * msPerDay) with (n + (6 - wd) * msPerDay) by lia.
  apply clock_in_range. lia.
Qed.

(** The week test of line 102 for a date at least three days ahead. *)
Lemma week_test (D : Z) :
  N + 3 <= D ->
  tv_ge (Some (D * msPerDay)) (Some (n - wd * msPerDay)) &&
  tv_le (Some (D * msPerDay)) (Some (n + (6 - wd) * msPerDay))
  = (D * msPerDay <=? n + (6 - wd) * msPerDay).
Proof.
  intros HD. unfold tv_ge. cbn [tv_le]. pose proof clock_decompose as [E R]. pose proof wd_range.
  destruct (Z.leb_spec (n - wd * msPerDay) (D * msPerDay)); [reflexivity|].
  exfalso. unfold msPerDay in *. nia.
Qed.

(** Read at or after [tz] o'clock, the test is the week of the spec ... *)
Lemma week_test_late (D : Z) :
  tz <= TimeWithinDay (LocalTime tz n) ->
  (D * msPerDay <=? n + (6 - wd) * msPerDay) = (D <=? N - wd + 6).
Proof.
  intros Hr. pose proof clock_decompose as [E R].
  destruct (Z.leb_spec (D * msPerDay) (n + (6 - wd) * msPerDay)), (Z.leb_spec D (N - wd + 6));
    try reflexivity; exfalso; unfold msPerDay in *; nia.
Qed.

(** ... read before it, the last day of the week falls out. *)
Lemma week_test_early (D : Z) :
  TimeWithinDay (LocalTime tz n) < tz ->
  (D * msPerDay <=? n + (6 - wd) * msPerDay) = (D <=? N - wd + 5).
Proof.
  intros Hr. pose proof clock_decompose as [E R].
  destruct (Z.leb_spec (D * msPerDay) (n + (6 - wd) * msPerDay)), (Z.leb_spec D (N - wd + 5));
    try reflexivity; exfalso; unfold msPerDay in *; nia.
Qed.

Lemma getMonth_clock : getMonth tz (Some n) = Some (c_month (civil_of_local (N * msPerDay))).
Proof. cbn [getMonth option_map]. unfold N. rewrite <- civil_of_local_LocalDay. reflexivity. Qed.

Lemma getFullYear_clock : getFullYear tz (Some n) = Some (c_year (civil_of_local (N * msPerDay))).
Proof. cbn [getFullYear option_map]. unfold N. rewrite <- civil_of_local_LocalDay. reflexivity. Qed.

(** The run with every reading equal to [n], in terms of local days: the
    code's decisions, with the week test still in milliseconds. *)
Lemma run_const (date : value) (t : Z) :
  truthy date = true -> ToDate tz date = Some t -> four_digit_day (LocalDay tz t) ->
  run (displayPrettyDate tz date) (fun _ => n) =
  let D := LocalDay tz t in
  let today := civil_of_local (N * msPerDay) in
  let day := civil_of_local (D * msPerDay) in
  if D <? N then "Verby"
  else if D =? N then "Vandag"
  else if D =? N + 1 then "Môre"
  else if D =? N + 2 then "Oormôre"
  else if D * msPerDay <=? n + (6 - wd) * msPerDay then "Hierdie week"
  else if (c_year day =? c_year today) && (c_month day =? c_month today) then "Hierdie maand"
  else if (c_year day =? fst (next_month today)) && (c_month day =? snd (next_month today))
  then "Volgende maand"
  else "Later".
Proof.
  intros Ht Hd HD. unfold run, displayPrettyDate. rewrite Ht. clock_step.
  rewrite Hd, past_test. set (D := LocalDay tz t) in *.
  destruct (Z.ltb_spec D N); clock_step; [reflexivity|].
  rewrite (formatDate_en_day tz date t Ht Hd), formatDate_clock. fold D.
  assert (HN1 : four_digit_day (N + 1)) by (apply (four_digit_between N (N + 3)); auto; lia).
  assert (HN2 : four_digit_day (N + 2)) by (apply (four_digit_between N (N + 3)); auto; lia).
  cbn [strict_eq_prim]. rewrite en_day_eqb by assumption.
  destruct (Z.eqb_spec D N); clock_step; [reflexivity|].
  change (NFin msPerDayNumber) with (NFin (1 * msPerDay)).
  rewrite formatDate_clock_plus by lia. cbn [strict_eq_prim]. rewrite en_day_eqb by assumption.
  destruct (Z.eqb_spec D (N + 1)); clock_step; [reflexivity|].
  change (NFin (2 * msPerDayNumber)) with (NFin (2 * msPerDay)).
  rewrite formatDate_clock_plus by lia. cbn [strict_eq_prim]. rewrite en_day_eqb by assumption.
  destruct (Z.eqb_spec D (N + 2)); clock_step; [reflexivity|].
  rewrite week_start_value, week_end_value, en_day_parse by assumption.
  rewrite week_test by lia.
  destruct (D * msPerDay <=? n + (6 - wd) * msPerDay); clock_step; [reflexivity|].
  rewrite getMonth_clock, getFullYear_clock, getMonth_day, getFullYear_day by exact Htz.
  rewrite !num_opt_eqb_Some, (andb_comm (_ =? c_month _)).
  destruct (_ && _); clock_step; [reflexivity|].
  rewrite next_month_code by (apply MonthFromTime_spec).
  unfold next_month. destruct (_ =? 11); cbn [fst snd]; destruct (_ && _); reflexivity.
Qed.
End OneRun.



(** ** The refinement theorem *)

Lemma WeekDay_LocalDay (tz n : Z) : WeekDay (LocalDay tz n * msPerDay) = WeekDay (LocalTime tz n).
Proof. unfold WeekDay, LocalDay. rewrite Day_mul. reflexivity. Qed.

Lemma WeekDay_range (t : Z) : 0 <= WeekDay t < 7.
Proof. unfold WeekDay. apply Z.mod_pos_bound. lia. Qed.

Lemma week_spec_late (tz n D : Z) :
  0 <= tz < msPerDay -> tz <= TimeWithinDay (LocalTime tz n) -> LocalDay tz n + 3 <= D ->
  (D * msPerDay <=? n + (6 - WeekDay (LocalTime tz n)) * msPerDay) =
  (LocalDay tz n - WeekDay (LocalDay tz n * msPerDay) <=? D) &&
  (D <=? LocalDay tz n - WeekDay (LocalDay tz n * msPerDay) + 6).
Proof.
  intros Htz Hr HD. rewrite WeekDay_LocalDay. erewrite week_test_late by eassumption.
  pose proof (WeekDay_range (LocalTime tz n)).
  destruct (Z.leb_spec (LocalDay tz n - WeekDay (LocalTime tz n)) D); [reflexivity|lia].
Qed.

(** C1: with every clock reading equal to
    [n], taken at or after [tz] o'clock local time (02:00 in the app's
    UTC+2), [displayPrettyDate] returns for any valid date exactly the
    label the specification assigns to the date's local day seen from
    the clock's local day: past, today, tomorrow, the day after, this
    Sunday-to-Saturday week, this month, next month, or later. *)
Theorem displayPrettyDate_refines_spec (tz n t : Z) (date : value) :
  0 <= tz < msPerDay -> 0 <= n ->
  four_digit_day (LocalDay tz n) -> four_digit_day (LocalDay tz n + 3) ->
  tz <= TimeWithinDay (LocalTime tz n) ->
  truthy date = true -> ToDate tz date = Some t -> four_digit_day (LocalDay tz t) ->
  run (displayPrettyDate tz date) (fun _ => n) = pretty_spec (LocalDay tz n) (LocalDay tz t).
Proof.
  intros Htz Hn HN HN3 Hr Ht Hd HD.
  rewrite (run_const tz n Htz Hn HN HN3 date t Ht Hd HD). unfold pretty_spec. cbv zeta.
  destruct (Z.ltb_spec (LocalDay tz t) (LocalDay tz n)); [reflexivity|].
  destruct (Z.eqb_spec (LocalDay tz t) (LocalDay tz n)); [reflexivity|].
  destruct (Z.eqb_spec (LocalDay tz t) (LocalDay tz n + 1)); [reflexivity|].
  destruct (Z.eqb_spec (LocalDay tz t) (LocalDay tz n + 2)); [reflexivity|].
  rewrite week_spec_late by (auto; lia). reflexivity.
Qed.

Definition wed_10h : Z := 1709683200000 + 8 * 3600000.

Lemma displayPrettyDate_refines_spec_witness :
  run (displayPrettyDate sample_tz (VStr "2024-03-09")) (fun _ => wed_10h) = "Hierdie week".
Proof.
  rewrite (displayPrettyDate_refines_spec sample_tz wed_10h 1709942400000);
    try tk_concrete; solve_four_digit.
Defined.

(** C8: before [tz] o'clock local
    time (00:00-02:00 in UTC+2), the Saturday that ends the current week
    is not labelled "Hierdie week", although the specification says it
    is: [this_week_end] keeps the current time of day while the date is
    compared as midnight UTC. *)
Theorem displayPrettyDate_week_end_before_offset (tz n t : Z) (date : value) :
  0 <= tz < msPerDay -> 0 <= n ->
  four_digit_day (LocalDay tz n) -> four_digit_day (LocalDay tz n + 3) ->
  TimeWithinDay (LocalTime tz n) < tz ->
  truthy date = true -> ToDate tz date = Some t -> four_digit_day (LocalDay tz t) ->
  LocalDay tz t = LocalDay tz n - WeekDay (LocalTime tz n) + 6 ->
  LocalDay tz n + 3 <= LocalDay tz t ->
  pretty_spec (LocalDay tz n) (LocalDay tz t) = "Hierdie week" /\
  run (displayPrettyDate tz date) (fun _ => n) <> "Hierdie week".
Proof.
  intros Htz Hn HN HN3 Hr Ht Hd HD HS H3.
  split.
  - unfold pretty_spec. cbv zeta. rewrite WeekDay_LocalDay.
    destruct (Z.ltb_spec (LocalDay tz t) (LocalDay tz n)); [lia|].
    destruct (Z.eqb_spec (LocalDay tz t) (LocalDay tz n)); [lia|].
    destruct (Z.eqb_spec (LocalDay tz t) (LocalDay tz n + 1)); [lia|].
    destruct (Z.eqb_spec (LocalDay tz t) (LocalDay tz n + 2)); [lia|].
    destruct (Z.leb_spec (LocalDay tz n - WeekDay (LocalTime tz n)) (LocalDay tz t)); [|lia].
    destruct (Z.leb_spec (LocalDay tz t) (LocalDay tz n - WeekDay (LocalTime tz n) + 6)); [reflexivity|lia].
  - rewrite (run_const tz n Htz Hn HN HN3 date t Ht Hd HD). cbv zeta.
    erewrite week_test_early by eassumption.
    destruct (Z.ltb_spec (LocalDay tz t) (LocalDay tz n)); [lia|].
    destruct (Z.eqb_spec (LocalDay tz t) (LocalDay tz n)); [lia|].
    destruct (Z.eqb_spec (LocalDay tz t) (LocalDay tz n + 1)); [lia|].
    destruct (Z.eqb_spec (LocalDay tz t) (LocalDay tz n + 2)); [lia|].
    destruct (Z.leb_spec (LocalDay tz t) (LocalDay tz n - WeekDay (LocalTime tz n) + 5)); [lia|].
    destruct (_ && _); [discriminate|]. destruct (_ && _); discriminate.
Qed.

Definition wed_01h : Z := 1709683200000 - 3600000.

Lemma displayPrettyDate_week_end_before_offset_witness :
  pretty_spec (LocalDay sample_tz wed_01h) (LocalDay sample_tz 1709942400000) = "Hierdie week" /\
  run (displayPrettyDate sample_tz (VStr "2024-03-09")) (fun _ => wed_01h) = "Hierdie maand".
Proof.
  split.
  - refine (proj1 (displayPrettyDate_week_end_before_offset sample_tz wed_01h 1709942400000
                     (VStr "2024-03-09") _ _ _ _ _ _ _ _ _ _));
      first [solve_four_digit | tk_concrete].
  - vm_compute. reflexivity.
Defined.

(** ** Behaviour for any clock *)

(** Splits a run into its branches: reduce the monad, case on the first
    test, repeat. *)
Ltac split_run :=
  repeat (clock_step;
          match goal with
          | |- context [if ?c then _ else _] => destruct c
          end);
  clock_step.

(** C23: a falsy argument is labelled "Geen datum"
    without reading the clock. *)
Theorem displayPrettyDate_no_date (tz : Z) (date : value) (clk : nat -> Z) :
  truthy date = false ->
  run (displayPrettyDate tz date) clk = "Geen datum" /\ reads (displayPrettyDate tz date) clk = O.
Proof. intros H. unfold run, reads, displayPrettyDate. rewrite H. split; reflexivity. Qed.

Lemma displayPrettyDate_no_date_witness :
  run (displayPrettyDate sample_tz VNull) (fun _ => wed_10h) = "Geen datum" /\
  reads (displayPrettyDate sample_tz VNull) (fun _ => wed_10h) = O.
Proof. apply displayPrettyDate_no_date. reflexivity. Defined.

(** Past the first test, "Verby" is never returned. *)
Lemma run_not_verby (tz : Z) (date : value) (clk : nat -> Z) :
  truthy date = true -> tv_lt (ToDate tz date) (setHours0 tz (Some (clk O))) = false ->
  run (displayPrettyDate tz date) clk <> "Verby".
Proof.
  intros Ht Hp. unfold run, displayPrettyDate. rewrite Ht. clock_step. rewrite Hp.
  split_run; discriminate.
Qed.

(** C6: in a time zone at or east of UTC, for a valid date and a first
    clock reading in a four-digit year, the label is "Verby" exactly when the date's
    local day is before the local day of the first reading (the time of
    day of the date does not matter). *)
Theorem displayPrettyDate_past (tz t : Z) (date : value) (clk : nat -> Z) :
  0 <= tz < msPerDay -> 0 <= clk O -> four_digit_day (LocalDay tz (clk O)) ->
  truthy date = true -> ToDate tz date = Some t ->
  run (displayPrettyDate tz date) clk = "Verby" <-> LocalDay tz t < LocalDay tz (clk O).
Proof.
  intros Htz Hn HN Ht Hd. split.
  - intros HV. destruct (Z.ltb_spec (LocalDay tz t) (LocalDay tz (clk O))) as [|L]; [assumption|].
    exfalso. refine (run_not_verby tz date clk Ht _ HV).
    rewrite Hd, past_test by assumption. apply Z.ltb_ge, L.
  - intros L. unfold run, displayPrettyDate. rewrite Ht. clock_step.
    rewrite Hd, past_test by assumption. apply Z.ltb_lt in L. rewrite L. reflexivity.
Qed.

Lemma displayPrettyDate_past_witness :
  run (displayPrettyDate sample_tz (VStr "2024-03-05T23:59")) (fun _ => wed_10h) = "Verby".
Proof.
  apply (displayPrettyDate_past sample_tz 1709675940000); try tk_concrete; try solve_four_digit.
Defined.

(** C7: in a time zone at or east of UTC, a valid date on the local day
    of the first two clock readings (in a four-digit year) is labelled
    "Vandag", whatever its time of day. *)
Theorem displayPrettyDate_today (tz t : Z) (date : value) (clk : nat -> Z) :
  0 <= tz < msPerDay -> 0 <= clk O -> four_digit_day (LocalDay tz (clk O)) ->
  truthy date = true -> ToDate tz date = Some t ->
  LocalDay tz t = LocalDay tz (clk O) -> LocalDay tz (clk 1%nat) = LocalDay tz (clk O) ->
  run (displayPrettyDate tz date) clk = "Vandag".
Proof.
  intros Htz Hn HN Ht Hd E0 E1. unfold run, displayPrettyDate. rewrite Ht. clock_step.
  rewrite Hd, past_test by assumption. rewrite E0, Z.ltb_irrefl. clock_step.
  rewrite (formatDate_en_day tz date t Ht Hd), formatDate_clock, E0, E1. cbn [strict_eq_prim].
  rewrite String.eqb_refl. reflexivity.
Qed.

Lemma displayPrettyDate_today_witness :
  run (displayPrettyDate sample_tz (VStr "2024-03-06T23:30")) (fun _ => wed_10h) = "Vandag".
Proof.
  apply (displayPrettyDate_today sample_tz 1709760600000); try tk_concrete; try solve_four_digit.
Defined.

(** C17: a truthy argument that is not a valid
    date (say an unparsable string) is labelled "Later": no test detects
    it, every comparison with NaN is false and "Invalid Date" equals no
    formatted clock reading, for any clock that reads a valid time. *)
Theorem displayPrettyDate_unparsable (tz : Z) (date : value) (clk : nat -> Z) :
  truthy date = true -> ToDate tz date = None ->
  (forall i, 0 <= clk i <= maxTime - 2 * msPerDay) ->
  run (displayPrettyDate tz date) clk = "Later".
Proof.
  intros Ht Hd Hc. unfold run, displayPrettyDate. rewrite Ht. clock_step.
  rewrite Hd. cbn [tv_lt]. clock_step.
  assert (Hf : formatDate tz date = VStr "Invalid Date") by (unfold formatDate; rewrite Ht, Hd; reflexivity).
  assert (Hk : forall i k, 1 <= k <= 2 ->
            strict_eq_prim (VStr "Invalid Date")
              (formatDate tz (VNum (num_add (NFin (clk i)) (NFin (k * msPerDay))))) = false).
  { intros i k Hk. pose proof (Hc i). cbn [num_add num_sub].
    unfold formatDate. set (x := clk i - (0 - k * msPerDay)).
    destruct (truthy (VNum (NFin x))); [|reflexivity]. cbn [negb ToDate].
    rewrite TimeClip_in by (unfold x, maxTime, msPerDay in *; lia). cbn [toLocaleDateString_en_CA strict_eq_prim].
    rewrite String.eqb_sym. apply en_CA_not_invalid. }
  rewrite Hf, (formatDate_valid tz (VDate (Some (clk 1%nat))) _ eq_refl eq_refl), strict_eq_str.
  rewrite String.eqb_sym, en_CA_not_invalid. clock_step.
  change (NFin msPerDayNumber) with (NFin (1 * msPerDay)). rewrite Hk by lia. clock_step.
  change (NFin (2 * msPerDayNumber)) with (NFin (2 * msPerDay)). rewrite Hk by lia. clock_step.
  change (ToDate tz (VStr "Invalid Date")) with (@None Z). rewrite tv_ge_None_l. clock_step.
  cbn [getMonth getFullYear option_map num_opt_eqb andb]. clock_step. reflexivity.
Qed.

Lemma displayPrettyDate_unparsable_witness :
  run (displayPrettyDate sample_tz (VStr "next Tuesday")) (fun _ => wed_10h) = "Later".
Proof.
  apply displayPrettyDate_unparsable; [reflexivity | reflexivity |].
  intros _. tk_concrete.
Defined.

(** C16: in a time zone west of UTC,
    today's date stored as its en-CA string (the form [formatDate]
    produces) is labelled "Verby": it is parsed as midnight UTC, which is
    still the previous local day there. *)
Theorem displayPrettyDate_west_today_past (tz : Z) (clk : nat -> Z) :
  - msPerDay < tz < 0 -> four_digit_day (LocalDay tz (clk O)) ->
  run (displayPrettyDate tz (VStr (en_day (LocalDay tz (clk O))))) clk = "Verby".
Proof.
  intros Htz HN. unfold run, displayPrettyDate. rewrite en_day_truthy. clock_step.
  rewrite en_day_parse, setHours0_day by exact HN.
  pose proof HN as H1. rewrite four_digit_day_iff in H1.
  rewrite TimeClip_in by (unfold maxTime, msPerDay in *; lia). cbn [tv_lt].
  destruct (Z.ltb_spec (LocalDay tz (clk O) * msPerDay) (LocalDay tz (clk O) * msPerDay - tz));
    [reflexivity | lia].
Qed.

Lemma displayPrettyDate_west_today_past_witness :
  run (displayPrettyDate west_tz (VStr "2024-03-06")) (fun _ => wed_10h + 5 * 3600000) = "Verby".
Proof.
  change (VStr "2024-03-06")
    with (VStr (en_day (LocalDay west_tz ((fun _ : nat => wed_10h + 5 * 3600000) O)))).
  apply displayPrettyDate_west_today_past; [tk_concrete | solve_four_digit].
Defined.

(** C15: the today test reads the clock again: when the second reading
    falls on another local day than the first (a run that crosses local
    midnight between lines 82 and 87), a valid date on the first
    reading's local day, which the specification labels "Vandag", is
    labelled neither "Vandag" nor "Verby", at any time of day. *)
Theorem displayPrettyDate_midnight_race (tz t : Z) (date : value) (clk : nat -> Z) :
  0 <= tz < msPerDay -> 0 <= clk O -> four_digit_day (LocalDay tz (clk O)) ->
  four_digit_day (LocalDay tz (clk 1%nat)) ->
  truthy date = true -> ToDate tz date = Some t -> LocalDay tz t = LocalDay tz (clk O) ->
  LocalDay tz (clk 1%nat) <> LocalDay tz (clk O) ->
  pretty_spec (LocalDay tz (clk O)) (LocalDay tz t) = "Vandag" /\
  run (displayPrettyDate tz date) clk <> "Vandag" /\ run (displayPrettyDate tz date) clk <> "Verby".
Proof.
  intros Htz Hn HN HN1 Ht Hd E0 E1.
  assert (Hp : tv_lt (ToDate tz date) (setHours0 tz (Some (clk O))) = false)
    by (rewrite Hd, past_test, E0 by assumption; apply Z.ltb_irrefl).
  split; [|split].
  - unfold pretty_spec. cbv zeta. rewrite E0, Z.ltb_irrefl, Z.eqb_refl. reflexivity.
  - unfold run, displayPrettyDate. rewrite Ht. clock_step. rewrite Hp. clock_step.
    rewrite (formatDate_en_day tz date t Ht Hd), formatDate_clock. cbn [strict_eq_prim].
    rewrite en_day_eqb, E0 by (rewrite ?E0; assumption).
    destruct (Z.eqb_spec (LocalDay tz (clk O)) (LocalDay tz (clk 1%nat))) as [E|_]; [congruence|].
    split_run; discriminate.
  - apply run_not_verby; assumption.
Qed.

(** A run whose first reading is the last millisecond of Monday 4 March
    2024 (UTC+2) and whose later readings are the next millisecond. *)
Definition race_clock (i : nat) : Z :=
  match i with O => 1709589599999 | S _ => 1709589600000 end.

Lemma displayPrettyDate_midnight_race_witness :
  run (displayPrettyDate sample_tz (VStr "2024-03-04")) race_clock <> "Vandag".
Proof.
  refine (proj1 (proj2 (displayPrettyDate_midnight_race sample_tz 1709510400000
                          (VStr "2024-03-04") race_clock _ _ _ _ _ _ _ _)));
    first [solve_four_digit | tk_concrete | vm_compute; discriminate].
Defined.
