(* ===== verification/SortByField.v ===== *)
(** * [sortByField]: sorting an array of records in place

    Model of [src/src/lib/index.js] lines 147-160.  [sortByField] calls
    [array.sort] with a comparator (lines 150-159) that subtracts the
    field values when both are numbers and otherwise compares their
    strings ([String(v ?? "")]) with [localeCompare].

    - [Array.prototype.sort] (ECMA-262 23.1.3.30) sorts a copy of the
      elements with SortCompare (undefined elements last, a NaN result read
      as 0), propagates an exception of the comparator before writing
      anything, and writes the sorted list back into the same array.  The
      algorithm is implementation-defined but must be stable; it is
      modelled by a stable insertion sort ([array_sort]), and
      [stable_sort_unique] shows that for a consistent comparator every
      stable sort returns the same list, so the choice does not matter.
    - The array lives in a heap of arrays ([gmap positive (list value)]):
      the function returns the reference it was given and updates that
      array in place.
    - [localeCompare] is ICU collation; it is the interface [Collator]
      (a total preorder on strings).  [codepoint_collator] is an instance
      used to evaluate examples. *)

From Stdlib Require Import ZArith Lia String Ascii List Bool Permutation Sorted.
From stdpp Require Import gmap.
From S2P Require Import Prelude JsValue.
Import ListNotations.

Open Scope string_scope.
Open Scope Z_scope.

(** ** Stable insertion sort *)

Section StableSort.
Local Open Scope list_scope.
Context {A : Type} (c : A -> A -> comparison) (P : A -> Prop).

(** [c] is a total preorder on the elements satisfying [P]. *)
Hypothesis c_antisym : forall x y, P x -> P y -> c y x = CompOpp (c x y).
Hypothesis c_trans : forall x y z, P x -> P y -> P z -> c x y <> Gt -> c y z <> Gt -> c x z <> Gt.

Definition le_c (x y : A) : Prop := c x y <> Gt.

Definition same_c (k y : A) : bool := match c k y with Eq => true | _ => false end.

(** Insert [x] after every element not greater than it. *)
Fixpoint insert (x : A) (l : list A) : list A :=
  match l with
  | [] => [x]
  | y :: r => match c y x with Gt => x :: y :: r | _ => y :: insert x r end
  end.

Fixpoint isort_acc (acc l : list A) : list A :=
  match l with
  | [] => acc
  | x :: r => isort_acc (insert x acc) r
  end.

Definition isort (l : list A) : list A := isort_acc [] l.

(** The contract of a stable sort: a sorted permutation that keeps the
    order of every class of equivalent elements. *)
Definition stable_sort_spec (l l' : list A) : Prop :=
  Permutation l l' /\ StronglySorted le_c l' /\
  forall k, P k -> List.filter (same_c k) l' = List.filter (same_c k) l.

Lemma c_refl (x : A) : P x -> c x x = Eq.
Proof. intros Hx. pose proof (c_antisym x x Hx Hx). destruct (c x x); easy. Qed.

Lemma c_gt_lt (x y : A) : P x -> P y -> c y x = Gt -> c x y = Lt.
Proof. intros Hx Hy H. rewrite (c_antisym y x Hy Hx), H. reflexivity. Qed.

(** Elements equivalent to a common [k] are equivalent. *)
Lemma same_class (k x z : A) : P k -> P x -> P z -> c k x = Eq -> c k z = Eq -> c x z = Eq.
Proof.
  intros Hk Hx Hz H1 H2.
  assert (c x k = Eq) by (rewrite (c_antisym k x Hk Hx), H1; reflexivity).
  assert (c z k = Eq) by (rewrite (c_antisym k z Hk Hz), H2; reflexivity).
  assert (c x z <> Gt) by (apply (c_trans x k z); auto; congruence).
  assert (c z x <> Gt) by (apply (c_trans z k x); auto; congruence).
  rewrite (c_antisym x z Hx Hz) in *. destruct (c x z); easy.
Qed.

Lemma insert_perm (x : A) (l : list A) : Permutation (insert x l) (x :: l).
Proof.
  induction l as [|y r IH]; simpl; [reflexivity|].
  destruct (c y x); try reflexivity;
    (eapply perm_trans; [apply perm_skip, IH | apply perm_swap]).
Qed.

Lemma isort_acc_perm (acc l : list A) : Permutation (isort_acc acc l) (acc ++ l).
Proof.
  revert acc; induction l as [|x r IH]; intros acc; simpl.
  - rewrite app_nil_r. reflexivity.
  - rewrite IH, insert_perm. apply Permutation_middle.
Qed.

Lemma Forall_perm (Q : A -> Prop) (l l' : list A) : Permutation l l' -> Forall Q l -> Forall Q l'.
Proof. intros Hp H. rewrite List.Forall_forall in *. intros y Hy. apply H. eapply Permutation_in; [symmetry|]; eauto. Qed.

Lemma insert_sorted (x : A) (l : list A) :
  P x -> Forall P l -> StronglySorted le_c l -> StronglySorted le_c (insert x l).
Proof.
  intros Hx. induction l as [|y r IH]; intros HP HS; simpl.
  - repeat constructor.
  - inversion HP as [|? ? Hy Hr]; subst. inversion HS as [|? ? Hsr Hyr]; subst.
    destruct (c y x) eqn:E.
    + constructor; [apply IH; auto|].
      eapply Forall_perm; [symmetry; apply insert_perm|]. constructor; [unfold le_c; congruence | exact Hyr].
    + constructor; [apply IH; auto|].
      eapply Forall_perm; [symmetry; apply insert_perm|]. constructor; [unfold le_c; congruence | exact Hyr].
    + constructor; [constructor; auto|]. constructor.
      * unfold le_c. rewrite (c_gt_lt x y Hx Hy E). discriminate.
      * rewrite List.Forall_forall in *. intros z Hz. unfold le_c.
        apply (c_trans x y z); auto; [rewrite (c_gt_lt x y Hx Hy E); discriminate | apply Hyr, Hz].
Qed.

Lemma isort_acc_sorted (acc l : list A) :
  Forall P acc -> Forall P l -> StronglySorted le_c acc -> StronglySorted le_c (isort_acc acc l).
Proof.
  revert acc; induction l as [|x r IH]; intros acc Ha Hl Hs; simpl; [exact Hs|].
  inversion Hl; subst. apply IH; auto.
  - eapply Forall_perm; [symmetry; apply insert_perm | constructor; auto].
  - apply insert_sorted; auto.
Qed.

Lemma filter_all_false (f : A -> bool) (l : list A) :
  (forall z, In z l -> f z = false) -> List.filter f l = [].
Proof.
  induction l as [|z r IH]; intros H; simpl; [reflexivity|].
  rewrite H by (left; reflexivity). apply IH. intros w Hw. apply H. right. exact Hw.
Qed.

(** Inserting [x] keeps the order within every class and puts [x] last
    in its own class. *)
Lemma insert_filter (k x : A) (l : list A) :
  P k -> P x -> Forall P l -> StronglySorted le_c l ->
  List.filter (same_c k) (insert x l) = List.filter (same_c k) l ++ List.filter (same_c k) [x].
Proof.
  intros Hk Hx. induction l as [|y r IH]; intros HP HS; [reflexivity|].
  inversion HP as [|? ? Hy Hr]; subst. inversion HS as [|? ? Hsr Hyr]; subst.
  simpl insert. destruct (c y x) eqn:E;
    [simpl; rewrite IH by auto; destruct (same_c k y); reflexivity
    |simpl; rewrite IH by auto; destruct (same_c k y); reflexivity|].
  assert (Hnil : same_c k x = true -> List.filter (same_c k) (y :: r) = []).
  2:{ remember (y :: r) as yr eqn:Eyr. cbn [List.filter].
      destruct (same_c k x) eqn:Ex; [rewrite Hnil; reflexivity|rewrite app_nil_r; reflexivity]. }
  intros Ex. apply filter_all_false.
  unfold same_c in Ex. destruct (c k x) eqn:Ekx; try discriminate.
  intros z Hz. unfold same_c. destruct (c k z) eqn:Ekz; try reflexivity. exfalso.
  assert (Hz' : P z) by (rewrite List.Forall_forall in HP; apply HP, Hz).
  pose proof (same_class k x z Hk Hx Hz' Ekx Ekz) as Exz.
  destruct Hz as [<-|Hz].
  - rewrite (c_antisym x y Hx Hy), Exz in E. discriminate.
  - rewrite List.Forall_forall in Hyr. pose proof (Hyr z Hz) as Hyz.
    apply (c_trans y z x Hy Hz' Hx Hyz); [rewrite (c_antisym x z Hx Hz'), Exz; discriminate | congruence].
Qed.

Lemma isort_acc_filter (k : A) (acc l : list A) :
  P k -> Forall P acc -> Forall P l -> StronglySorted le_c acc ->
  List.filter (same_c k) (isort_acc acc l) = List.filter (same_c k) acc ++ List.filter (same_c k) l.
Proof.
  intros Hk. revert acc; induction l as [|x r IH]; intros acc Ha Hl Hs; simpl.
  - rewrite app_nil_r. reflexivity.
  - inversion Hl; subst. rewrite IH.
    + rewrite insert_filter by auto. rewrite <- app_assoc. simpl. destruct (same_c k x); reflexivity.
    + eapply Forall_perm; [symmetry; apply insert_perm | constructor; auto].
    + assumption.
    + apply insert_sorted; auto.
Qed.

(** Insertion sort meets the contract of a stable sort ... *)
Lemma isort_spec (l : list A) : Forall P l -> stable_sort_spec l (isort l).
Proof.
  intros Hl. split; [|split].
  - symmetry. apply isort_acc_perm.
  - apply isort_acc_sorted; auto. constructor.
  - intros k Hk. unfold isort. rewrite isort_acc_filter; auto. constructor.
Qed.

Lemma filter_self (a : A) (r : list A) :
  P a -> In a (List.filter (same_c a) (a :: r)).
Proof. intros Ha. simpl. unfold same_c at 1. rewrite c_refl by exact Ha. left. reflexivity. Qed.

(** ... and two sorted lists with the same classes in the same orders are
    equal. *)
Lemma stable_sorted_unique (l1 l2 : list A) :
  Forall P l1 -> Forall P l2 -> StronglySorted le_c l1 -> StronglySorted le_c l2 ->
  (forall k, P k -> List.filter (same_c k) l1 = List.filter (same_c k) l2) -> l1 = l2.
Proof.
  revert l2; induction l1 as [|a r1 IH]; intros l2 H1 H2 S1 S2 F.
  - destruct l2 as [|b r2]; [reflexivity|]. inversion H2; subst.
    pose proof (filter_self b r2 ltac:(assumption)) as I. rewrite <- F in I by assumption. destruct I.
  - inversion H1 as [|? ? Ha Hr1]; subst.
    assert (Ina : In a l2).
    { pose proof (filter_self a r1 Ha) as I. rewrite F in I by exact Ha.
      apply filter_In in I. tauto. }
    destruct l2 as [|b r2]; [destruct Ina|].
    inversion H2 as [|? ? Hb Hr2]; subst.
    inversion S1 as [|? ? S1r A1]; subst. inversion S2 as [|? ? S2r A2]; subst.
    assert (Inb : In b (a :: r1)).
    { pose proof (filter_self b r2 Hb) as I. rewrite <- F in I by exact Hb.
      apply filter_In in I. tauto. }
    assert (Hab : c a b = Eq).
    { destruct Ina as [->|Ina]; [apply c_refl; auto|].
      destruct Inb as [->|Inb]; [apply c_refl; auto|].
      rewrite List.Forall_forall in A1, A2. pose proof (A2 a Ina). pose proof (A1 b Inb).
      unfold le_c in *. rewrite (c_antisym a b Ha Hb) in *. destruct (c a b); easy. }
    assert (E1 : same_c a a = true) by (unfold same_c; rewrite c_refl; auto).
    assert (E2 : same_c a b = true) by (unfold same_c; rewrite Hab; reflexivity).
    pose proof (F a Ha) as Fa. cbn [List.filter] in Fa.
    rewrite E1, E2 in Fa. injection Fa as <- Fr.
    f_equal. apply IH; auto.
    intros k Hk. specialize (F k Hk). simpl in F. destruct (same_c k a); [injection F|]; auto.
Qed.

(** The contract determines the result: every stable sort returns what
    insertion sort returns. *)
Lemma stable_sort_unique (l l' : list A) :
  Forall P l -> stable_sort_spec l l' -> l' = isort l.
Proof.
  intros Hl [Hp [Hs Hf]]. pose proof (isort_spec l Hl) as [Hp' [Hs' Hf']].
  apply stable_sorted_unique; auto.
  - eapply Forall_perm; eauto.
  - eapply Forall_perm; eauto.
  - intros k Hk. rewrite Hf, Hf'; auto.
Qed.
End StableSort.

(** ** Completions as a monad: the [?] of the algorithm steps of ECMA-262
    (an abrupt completion is returned at once). *)
#[export] Instance completion_ret : MRet completion := fun A a => Normal a.
#[export] Instance completion_bind : MBind completion :=
  fun A B k m => match m with Normal a => k a | Throw e => Throw e end.

(** ** [Array.prototype.sort] (ECMA-262 23.1.3.30) *)

(** The sign of the comparator's result; CompareArrayElements reads NaN
    as [+0]. *)
Definition sign_of (n : number) : comparison :=
  match n with
  | NFin z => Z.compare z 0
  | NNaN => Eq
  | NPosInf => Gt
  | NNegInf => Lt
  end.

(** CompareArrayElements (23.1.3.30.2): [undefined] sorts after every
    other value and the comparator is not called on it. *)
Definition sort_compare (cmp : value -> value -> completion number) (x y : value)
  : completion comparison :=
  match x, y with
  | VUndefined, VUndefined => Normal Eq
  | VUndefined, _ => Normal Gt
  | _, VUndefined => Normal Lt
  | _, _ => n ← cmp x y; Normal (sign_of n)
  end.

(** The same order for a comparator that cannot throw. *)
Definition undefined_last (c : value -> value -> comparison) (x y : value) : comparison :=
  match x, y with
  | VUndefined, VUndefined => Eq
  | VUndefined, _ => Gt
  | _, VUndefined => Lt
  | _, _ => c x y
  end.

Lemma value_eq_null (v : value) : {v = VNull} + {v <> VNull}.
Proof. destruct v; first [left; reflexivity | right; discriminate]. Qed.

Lemma value_eq_undefined (v : value) : {v = VUndefined} + {v <> VUndefined}.
Proof. destruct v; first [left; reflexivity | right; discriminate]. Qed.

Section ArraySort.
Variable cmp : value -> value -> completion number.

(** SortIndexedProperties sorts the list of elements by an
    implementation-defined sequence of calls to CompareArrayElements and
    stops at the first abrupt completion.  The sequence is that of a
    stable insertion sort: [x] is compared with the sorted prefix from
    the left and goes before the first element greater than it. *)
Fixpoint sort_insert (x : value) (l : list value) : completion (list value) :=
  match l with
  | [] => Normal [x]
  | y :: r =>
      o ← sort_compare cmp y x;
      match o with
      | Gt => Normal (x :: y :: r)
      | _ => r' ← sort_insert x r; Normal (y :: r')
      end
  end.

Fixpoint sort_acc (acc l : list value) : completion (list value) :=
  match l with
  | [] => Normal acc
  | x :: r => acc' ← sort_insert x acc; sort_acc acc' r
  end.

Definition array_sort (l : list value) : completion (list value) := sort_acc [] l.

Lemma sort_compare_defined (x y : value) :
  x <> VUndefined -> y <> VUndefined ->
  sort_compare cmp x y = (n ← cmp x y; Normal (sign_of n)).
Proof. intros Hx Hy. destruct x, y; first [congruence | reflexivity]. Qed.

(** When the comparator does not throw, the sort is the stable insertion
    sort of the order it induces. *)
Section Pure.
Variables (Q : value -> Prop) (c : value -> value -> comparison).
Hypothesis cmp_pure : forall x y, Q x -> Q y -> sort_compare cmp x y = Normal (c x y).

Lemma sort_insert_pure (x : value) (l : list value) :
  Q x -> Forall Q l -> sort_insert x l = Normal (insert c x l).
Proof.
  intros Hx. induction l as [|y r IH]; intros Hl; [reflexivity|].
  inversion Hl; subst. simpl. rewrite cmp_pure by assumption. simpl.
  destruct (c y x); try reflexivity; rewrite IH by assumption; reflexivity.
Qed.

Lemma sort_acc_pure (acc l : list value) :
  Forall Q acc -> Forall Q l -> sort_acc acc l = Normal (isort_acc c acc l).
Proof.
  revert acc. induction l as [|x r IH]; intros acc Ha Hl; [reflexivity|].
  inversion Hl; subst. simpl. rewrite sort_insert_pure by assumption. simpl.
  apply IH; [|assumption].
  eapply Forall_perm; [symmetry; apply insert_perm|constructor; assumption].
Qed.

Lemma array_sort_pure (l : list value) :
  Forall Q l -> array_sort l = Normal (isort c l).
Proof. intros Hl. apply sort_acc_pure; auto. Qed.
End Pure.

(** A comparator that throws [e] exactly when one of its arguments is
    [null] (a property read on [null]) makes the sort throw [e] as soon
    as [null] is compared with anything. *)
Section NullElement.
Variable e : js_error.
Hypothesis cmp_null_l : forall v, v <> VUndefined -> cmp VNull v = Throw e.
Hypothesis cmp_null_r : forall v, v <> VUndefined -> cmp v VNull = Throw e.
Hypothesis cmp_normal : forall u v, u <> VNull -> v <> VNull ->
  u <> VUndefined -> v <> VUndefined -> exists n, cmp u v = Normal n.

Definition plain (v : value) : Prop := v <> VNull /\ v <> VUndefined.

Lemma sort_insert_plain (x : value) (l : list value) :
  plain x -> Forall plain l -> exists l', sort_insert x l = Normal l' /\ Permutation (x :: l) l'.
Proof.
  intros [Hxn Hxu]. induction l as [|y r IH]; intros Hl; [eexists; split; reflexivity|].
  inversion Hl as [|? ? [Hyn Hyu] Hr]; subst. simpl.
  rewrite sort_compare_defined by assumption.
  destruct (cmp_normal y x) as [n Hn]; try assumption. rewrite Hn. simpl.
  destruct (sign_of n); [| |eexists; split; reflexivity];
    destruct (IH Hr) as [r' [-> Hp]]; eexists; (split; [reflexivity|]);
    rewrite perm_swap; constructor; exact Hp.
Qed.

Lemma sort_insert_null (x y : value) (r : list value) :
  x <> VUndefined -> y <> VUndefined -> (x = VNull \/ y = VNull) ->
  sort_insert x (y :: r) = Throw e.
Proof.
  intros Hx Hy Hnull. simpl. rewrite sort_compare_defined by assumption.
  destruct Hnull as [->| ->]; [rewrite cmp_null_r | rewrite cmp_null_l]; auto.
Qed.

Lemma sort_acc_null (y : value) (ar l : list value) :
  y <> VUndefined -> Forall plain ar -> Forall (fun v => v <> VUndefined) l ->
  (y = VNull /\ l <> []) \/ In VNull l ->
  sort_acc (y :: ar) l = Throw e.
Proof.
  revert y ar. induction l as [|x r IH]; intros y ar Hy Har Hl Hnull.
  - destruct Hnull as [[_ []]|[]]; reflexivity.
  - inversion Hl as [|? ? Hx Hr]; subst. cbn [sort_acc].
    destruct (value_eq_null x) as [->|Hxn]; [rewrite sort_insert_null; auto|].
    destruct (value_eq_null y) as [->|Hyn]; [rewrite sort_insert_null; auto|].
    destruct (sort_insert_plain x (y :: ar)) as [acc' [-> Hp]];
      [split; assumption|constructor; [split|]; assumption|].
    simpl. destruct acc' as [|y' ar']; [apply Permutation_sym, Permutation_nil_cons in Hp; contradiction|].
    assert (Hall : Forall plain (y' :: ar')).
    { eapply Forall_perm; [exact Hp|]. repeat constructor; assumption. }
    inversion Hall as [|? ? [Hy'n Hy'u] Har']; subst.
    apply IH; auto. right.
    destruct Hnull as [[? _]|[?|?]]; congruence.
Qed.
End NullElement.
End ArraySort.

Lemma array_sort_null (cmp : value -> value -> completion number) (e : js_error) (l : list value) :
  (forall v, v <> VUndefined -> cmp VNull v = Throw e) ->
  (forall v, v <> VUndefined -> cmp v VNull = Throw e) ->
  (forall u v, u <> VNull -> v <> VNull -> u <> VUndefined -> v <> VUndefined ->
     exists n, cmp u v = Normal n) ->
  Forall (fun v => v <> VUndefined) l -> In VNull l -> (2 <= length l)%nat ->
  array_sort cmp l = Throw e.
Proof.
  intros H1 H2 H3 Hl Hin Hlen. destruct l as [|x r]; [destruct Hin|].
  inversion Hl; subst. unfold array_sort. simpl. apply sort_acc_null; auto.
  destruct Hin as [<-|Hin]; [left; split; [reflexivity|]|right; exact Hin].
  destruct r; simpl in Hlen; [lia|discriminate].
Qed.

(** ** [String.prototype.localeCompare] (ECMA-402 19.1.1)

    The collation of the host's default locale, as an interface: a total
    preorder on strings.  Engines built on ICU return -1, 0 or 1. *)
Class Collator := {
  coll : string -> string -> comparison;
  coll_antisym : forall x y, coll y x = CompOpp (coll x y);
  coll_trans : forall x y z, coll x y <> Gt -> coll y z <> Gt -> coll x z <> Gt
}.

Definition localeCompare `{Collator} (a b : string) : number :=
  NFin (match coll a b with Lt => -1 | Eq => 0 | Gt => 1 end).

Lemma string_compare_trans (x y z : string) :
  String.compare x y <> Gt -> String.compare y z <> Gt -> String.compare x z <> Gt.
Proof.
  revert y z; induction x as [|a x IH]; intros [|b y] [|c z]; simpl; try congruence.
  unfold Ascii.compare.
  destruct (N.compare_spec (N_of_ascii a) (N_of_ascii b));
  destruct (N.compare_spec (N_of_ascii b) (N_of_ascii c));
  destruct (N.compare_spec (N_of_ascii a) (N_of_ascii c));
  first [apply IH | lia | intros; congruence].
Qed.

(** Code-unit order: the collation of the C locale, used to evaluate
    examples. *)
#[export] Instance codepoint_collator : Collator := {|
  coll := String.compare;
  coll_antisym := fun x y => String.compare_antisym y x;
  coll_trans := string_compare_trans
|}.

(** ** [sortByField] (index.js lines 147-160) *)

(** The arrays of the program live in a heap: [array.sort] reorders the
    array the caller holds. *)
Definition heap := gmap positive (list value).

(** ToNumeric on the operands of [-]: the comparator subtracts only
    values it has just found to be numbers. *)
Definition num_of (v : value) : number := match v with VNum n => n | _ => NNaN end.

(** [order = "asc"] as a default parameter, then [order === "asc"]. *)
Definition order_is_asc (order : value) : bool :=
  strict_eq_prim (if order is VUndefined then VStr "asc" else order) (VStr "asc").

Section SortByField.
Context {C : Collator}.
(** [String(x)] of a Date depends on the host's time zone. *)
Variable date_to_string : option Z -> string.

(** The comparator of lines 150-159.  The condition reads [b[field_name]]
    only when [a[field_name]] is a number; each branch reads the fields
    again, in the order the expressions are written. *)
Definition field_comparator (is_asc : bool) (field_name : string) (a b : value)
  : completion number :=
  a1 ← get_prop a field_name;
  both ← (if is_number a1 then (b1 ← get_prop b field_name; Normal (is_number b1))
          else Normal false : completion bool);
  if (both : bool) then
    if is_asc then
      x ← get_prop a field_name; y ← get_prop b field_name; Normal (num_sub (num_of x) (num_of y))
    else
      x ← get_prop b field_name; y ← get_prop a field_name; Normal (num_sub (num_of x) (num_of y))
  else
    a2 ← get_prop a field_name;
    let a_str := to_string date_to_string (nullish a2 (VStr "")) in
    b2 ← get_prop b field_name;
    let b_str := to_string date_to_string (nullish b2 (VStr "")) in
    Normal (if is_asc then localeCompare a_str b_str else localeCompare b_str a_str).

(** [sortByField(array, field_name, order)]: [array.sort(comparator)]
    sorts the array in place and returns it; an exception of the
    comparator leaves the array as it was.  A reference that names no
    array fails with the TypeError of calling [undefined]. *)
Definition sortByField (h : heap) (array : positive) (field_name : string) (order : value)
  : completion positive * heap :=
  let is_asc := order_is_asc order in
  match h !! array with
  | None => (Throw (TypeError "array.sort is not a function"), h)
  | Some items =>
      match array_sort (field_comparator is_asc field_name) items with
      | Normal sorted => (Normal array, <[array := sorted]> h)
      | Throw e => (Throw e, h)
      end
  end.

(** *** The order the comparator induces, as the specification states it:
    numbers by value when both fields are numbers, otherwise the strings
    [String(v ?? "")] by collation; descending swaps the operands;
    [undefined] elements last. *)
Definition field_value (field_name : string) (x : value) : value :=
  match get_prop x field_name with Normal v => v | Throw _ => VUndefined end.

Definition key_text (field_name : string) (x : value) : string :=
  to_string date_to_string (nullish (field_value field_name x) (VStr "")).

Definition key_compare (field_name : string) (x y : value) : comparison :=
  let u := field_value field_name x in
  let v := field_value field_name y in
  if is_number u && is_number v then sign_of (num_sub (num_of u) (num_of v))
  else coll (key_text field_name x) (key_text field_name y).

(** The integer key of an element whose field is a finite number. *)
Definition num_key (field_name : string) (x : value) : Z :=
  match field_value field_name x with VNum (NFin z) => z | _ => 0 end.

Definition by_field (is_asc : bool) (field_name : string) : value -> value -> comparison :=
  undefined_last (fun x y => if is_asc then key_compare field_name x y
                             else key_compare field_name y x).
End SortByField.

(** ** Facts about the order *)

Definition or_undefined (R : value -> Prop) (x : value) : Prop :=
  x = VUndefined \/ (x <> VUndefined /\ R x).

Lemma undefined_last_def (c : value -> value -> comparison) (x y : value) :
  x <> VUndefined -> y <> VUndefined -> undefined_last c x y = c x y.
Proof. intros; destruct x, y; first [congruence | reflexivity]. Qed.

Lemma undefined_last_l (c : value -> value -> comparison) (y : value) :
  y <> VUndefined -> undefined_last c VUndefined y = Gt.
Proof. intros; destruct y; first [congruence | reflexivity]. Qed.

Lemma undefined_last_r (c : value -> value -> comparison) (x : value) :
  x <> VUndefined -> undefined_last c x VUndefined = Lt.
Proof. intros; destruct x; first [congruence | reflexivity]. Qed.

Ltac undefined_last_simp :=
  repeat match goal with
  | |- context [undefined_last ?c VUndefined VUndefined] =>
      change (undefined_last c VUndefined VUndefined) with Eq
  | |- context [undefined_last ?c VUndefined ?y] => rewrite (undefined_last_l c y) by assumption
  | |- context [undefined_last ?c ?x VUndefined] => rewrite (undefined_last_r c x) by assumption
  | |- context [undefined_last ?c ?x ?y] => rewrite (undefined_last_def c x y) by assumption
  end.

(** Putting [undefined] last keeps a total preorder a total preorder. *)
Section UndefinedLast.
Variables (c : value -> value -> comparison) (R : value -> Prop).
Hypothesis c_antisym : forall x y, R x -> R y -> c y x = CompOpp (c x y).
Hypothesis c_trans : forall x y z, R x -> R y -> R z -> c x y <> Gt -> c y z <> Gt -> c x z <> Gt.

Lemma undefined_last_antisym (x y : value) :
  or_undefined R x -> or_undefined R y -> undefined_last c y x = CompOpp (undefined_last c x y).
Proof.
  intros [->|[Hx Rx]] [->|[Hy Ry]]; undefined_last_simp; auto.
Qed.

Lemma undefined_last_trans (x y z : value) :
  or_undefined R x -> or_undefined R y -> or_undefined R z ->
  undefined_last c x y <> Gt -> undefined_last c y z <> Gt -> undefined_last c x z <> Gt.
Proof.
  intros [->|[Hx Rx]] [->|[Hy Ry]] [->|[Hz Rz]]; undefined_last_simp;
    first [intros; congruence | eauto].
Qed.
End UndefinedLast.

Lemma StronglySorted_dom {A : Type} (P : A -> Prop) (R1 R2 : A -> A -> Prop) (l : list A) :
  (forall x y, P x -> P y -> R1 x y -> R2 x y) -> Forall P l ->
  StronglySorted R1 l -> StronglySorted R2 l.
Proof.
  intros H. induction l as [|x r IH]; intros HP HS; constructor;
    inversion HP as [|? ? Hx Hr]; inversion HS as [|? ? Hs Hxr]; subst; auto.
  rewrite List.Forall_forall in *. intros y Hy. apply H; auto.
Qed.

(** Three elements each of which [R] refuses to put before one of the
    others ([x] before [z], [y] before [x], [z] before [y]) have no
    arrangement that is strongly sorted by [R]: whichever comes first
    must be related to both others. *)
Lemma no_sorted_cycle {A : Type} (R : A -> A -> Prop) (x y z : A) (s : list A) :
  ~ R y x -> ~ R z y -> ~ R x z -> Permutation [x; y; z] s -> ~ StronglySorted R s.
Proof.
  intros Hyx Hzy Hxz Hp Hs.
  destruct s as [|h t]; [apply Permutation_length in Hp; discriminate|].
  apply StronglySorted_inv in Hs as [_ Hh]. rewrite List.Forall_forall in Hh.
  assert (Hh' : In h [x; y; z]) by (apply Permutation_in with (h :: t); [symmetry; exact Hp | left; reflexivity]).
  destruct Hh' as [<-|[<-|[<-|[]]]].
  - apply Permutation_cons_inv in Hp. apply Hxz, Hh.
    apply Permutation_in with [y; z]; [exact Hp | right; left; reflexivity].
  - assert (Hp' : Permutation (y :: [x; z]) (y :: t)) by (rewrite <- Hp; apply perm_swap).
    apply Permutation_cons_inv in Hp'. apply Hyx, Hh.
    apply Permutation_in with [x; z]; [exact Hp' | left; reflexivity].
  - assert (Hp' : Permutation (z :: [x; y]) (z :: t))
      by (rewrite <- Hp; apply (Permutation_cons_append [x; y] z)).
    apply Permutation_cons_inv in Hp'. apply Hzy, Hh.
    apply Permutation_in with [x; y]; [exact Hp' | right; left; reflexivity].
Qed.

Section SortFacts.
Context {C : Collator}.
Variable date_to_string : option Z -> string.

Lemma get_prop_plain (x : value) (f : string) :
  plain x -> get_prop x f = Normal (field_value f x).
Proof.
  intros [Hn Hu]. unfold field_value. destruct (get_prop x f) eqn:E; [reflexivity|].
  exfalso. destruct x; try congruence; simpl in E; repeat case_match; congruence.
Qed.

(** The comparator of the code refines the order of the specification:
    on two elements that are neither [null] nor [undefined] it returns a
    number of the sign [key_compare] gives. *)
Lemma field_comparator_sign (is_asc : bool) (f : string) (x y : value) :
  plain x -> plain y ->
  (n ← field_comparator date_to_string is_asc f x y; Normal (sign_of n))
  = Normal (if is_asc then key_compare date_to_string f x y else key_compare date_to_string f y x).
Proof.
  intros Hx Hy. unfold field_comparator, key_compare, key_text.
  rewrite !get_prop_plain by assumption. cbn.
  destruct (is_number (field_value f x)), (is_number (field_value f y)), is_asc; cbn;
    try reflexivity; unfold localeCompare; case_match; reflexivity.
Qed.

Lemma sort_compare_field (is_asc : bool) (f : string) (x y : value) :
  x <> VNull -> y <> VNull ->
  sort_compare (field_comparator date_to_string is_asc f) x y
  = Normal (by_field date_to_string is_asc f x y).
Proof.
  intros Hx Hy. unfold by_field.
  destruct (value_eq_undefined x) as [->|Hxu]; destruct (value_eq_undefined y) as [->|Hyu];
    undefined_last_simp; try reflexivity;
    [destruct y|destruct x|]; try congruence; try reflexivity.
  rewrite sort_compare_defined by assumption. apply field_comparator_sign; split; assumption.
Qed.

Lemma array_sort_field (is_asc : bool) (f : string) (l : list value) :
  Forall (fun x => x <> VNull) l ->
  array_sort (field_comparator date_to_string is_asc f) l
  = Normal (isort (by_field date_to_string is_asc f) l).
Proof.
  apply array_sort_pure. intros x y Hx Hy. apply sort_compare_field; assumption.
Qed.

(** An order on the elements that compares keys [k] with a total
    preorder [kc]. *)
Section KeyOrder.
Context {K : Type} (k : value -> K) (kc : K -> K -> comparison) (R : value -> Prop) (f : string).
Hypothesis kc_antisym : forall a b, kc b a = CompOpp (kc a b).
Hypothesis kc_trans : forall a b c, kc a b <> Gt -> kc b c <> Gt -> kc a c <> Gt.
Hypothesis key_compare_kc : forall x y, plain x -> R x -> plain y -> R y ->
  key_compare date_to_string f x y = kc (k x) (k y).

Definition keyed (x : value) : Prop := plain x /\ R x.

Definition key_le (is_asc : bool) (x y : value) : Prop :=
  if is_asc then kc (k x) (k y) <> Gt else kc (k y) (k x) <> Gt.

Definition key_eqb (x y : value) : bool := match kc (k x) (k y) with Eq => true | _ => false end.

Lemma by_field_keyed (is_asc : bool) (x y : value) : keyed x -> keyed y ->
  by_field date_to_string is_asc f x y = (if is_asc then kc (k x) (k y) else kc (k y) (k x)).
Proof.
  intros [[? ?] ?] [[? ?] ?]. unfold by_field. rewrite undefined_last_def by assumption.
  destruct is_asc; apply key_compare_kc; try split; assumption.
Qed.

Lemma by_field_antisym (is_asc : bool) (x y : value) :
  or_undefined keyed x -> or_undefined keyed y ->
  by_field date_to_string is_asc f y x = CompOpp (by_field date_to_string is_asc f x y).
Proof.
  apply undefined_last_antisym. intros x' y' Hx Hy. destruct Hx as [? ?], Hy as [? ?].
  destruct is_asc; rewrite !key_compare_kc by assumption; apply kc_antisym.
Qed.

Lemma by_field_trans (is_asc : bool) (x y z : value) :
  or_undefined keyed x -> or_undefined keyed y -> or_undefined keyed z ->
  le_c (by_field date_to_string is_asc f) x y -> le_c (by_field date_to_string is_asc f) y z ->
  le_c (by_field date_to_string is_asc f) x z.
Proof.
  apply undefined_last_trans. intros x' y' z' Hx Hy Hz.
  destruct Hx as [? ?], Hy as [? ?], Hz as [? ?].
  destruct is_asc; rewrite !key_compare_kc by assumption; eauto.
Qed.

Lemma le_by_field (is_asc : bool) (x y : value) : keyed x -> keyed y ->
  le_c (by_field date_to_string is_asc f) x y <-> key_le is_asc x y.
Proof. intros Hx Hy. unfold le_c, key_le. rewrite by_field_keyed by assumption. destruct is_asc; reflexivity. Qed.

Lemma same_by_field (is_asc : bool) (x y : value) : keyed x -> keyed y ->
  same_c (by_field date_to_string is_asc f) x y = key_eqb x y.
Proof.
  intros Hx Hy. unfold same_c, key_eqb. rewrite by_field_keyed by assumption.
  destruct is_asc; [reflexivity|]. rewrite kc_antisym. destruct (kc (k x) (k y)); reflexivity.
Qed.

Lemma keyed_or_undefined (l : list value) : Forall keyed l -> Forall (or_undefined keyed) l.
Proof. apply List.Forall_impl. intros x Hx. right. split; [apply Hx|exact Hx]. Qed.

Lemma key_eqb_class (x y z : value) : kc (k x) (k y) = Eq -> key_eqb x z = key_eqb y z.
Proof.
  pose proof (same_class kc (fun _ => True) (fun a b _ _ => kc_antisym a b)
                (fun a b c _ _ _ => kc_trans a b c)) as Hcl.
  intros Hxy. unfold key_eqb.
  destruct (kc (k x) (k z)) eqn:Exz, (kc (k y) (k z)) eqn:Eyz; try reflexivity;
    first [ rewrite (Hcl (k x) (k y) (k z)) in Eyz by auto; discriminate
          | assert (Hyx : kc (k y) (k x) = Eq) by (rewrite kc_antisym, Hxy; reflexivity);
            rewrite (Hcl (k y) (k x) (k z)) in Exz by auto; discriminate ].
Qed.

Lemma filter_keyed (is_asc : bool) (x : value) (l : list value) :
  keyed x -> Forall keyed l ->
  List.filter (same_c (by_field date_to_string is_asc f) x) l = List.filter (key_eqb x) l.
Proof.
  intros Hx Hl. apply List.filter_ext_in. intros y Hy.
  rewrite List.Forall_forall in Hl. apply same_by_field; auto.
Qed.

(** Sorting elements whose keys [kc] orders: the result is a permutation,
    ordered by key, and the elements of equal key keep their order. *)
Lemma keyed_sort (is_asc : bool) (l : list value) :
  Forall keyed l ->
  Permutation l (isort (by_field date_to_string is_asc f) l) /\
  StronglySorted (key_le is_asc) (isort (by_field date_to_string is_asc f) l) /\
  (forall x, In x l -> List.filter (key_eqb x) (isort (by_field date_to_string is_asc f) l)
                       = List.filter (key_eqb x) l).
Proof.
  intros Hl.
  destruct (isort_spec _ _ (by_field_antisym is_asc) (by_field_trans is_asc) l
              (keyed_or_undefined l Hl)) as [Hp [Hs Hf]].
  assert (Hs' : Forall keyed (isort (by_field date_to_string is_asc f) l)) by (eapply Forall_perm; eauto).
  split; [exact Hp|split].
  - eapply StronglySorted_dom; [|exact Hs'|exact Hs]. intros x y Hx Hy. apply le_by_field; auto.
  - intros x Hx. assert (Kx : keyed x) by (rewrite List.Forall_forall in Hl; auto).
    rewrite <- !(filter_keyed is_asc) by auto. apply Hf. right. split; [apply Kx|exact Kx].
Qed.

(** Any list with these three properties is that result. *)
Lemma keyed_sort_unique (is_asc : bool) (l s : list value) :
  Forall keyed l -> Permutation l s -> StronglySorted (key_le is_asc) s ->
  (forall x, In x l -> List.filter (key_eqb x) s = List.filter (key_eqb x) l) ->
  s = isort (by_field date_to_string is_asc f) l.
Proof.
  intros Hl Hp Hs Hf. assert (Hs' : Forall keyed s) by (eapply Forall_perm; eauto).
  eapply stable_sort_unique;
    [exact (by_field_antisym is_asc) | exact (by_field_trans is_asc) | apply keyed_or_undefined, Hl|].
  split; [exact Hp|split].
  - eapply StronglySorted_dom; [|exact Hs'|exact Hs]. intros x y Hx Hy. apply le_by_field; auto.
  - intros x [->|[_ Kx]].
    + assert (Hnone : forall m, Forall keyed m ->
                List.filter (same_c (by_field date_to_string is_asc f) VUndefined) m = []).
      { intros m Hm. apply filter_all_false. intros y Hy. rewrite List.Forall_forall in Hm.
        destruct (Hm y Hy) as [[_ Hyu] _]. unfold same_c, by_field.
        rewrite undefined_last_l by exact Hyu. reflexivity. }
      rewrite !Hnone by assumption. reflexivity.
    + rewrite !(filter_keyed is_asc) by assumption.
      destruct (List.existsb (key_eqb x) l) eqn:Ex.
      * apply existsb_exists in Ex as [y [Hy Exy]].
        assert (Hxy : kc (k x) (k y) = Eq) by (unfold key_eqb in Exy; case_match; congruence).
        rewrite !(List.filter_ext (key_eqb x) (key_eqb y)) by (intros; apply key_eqb_class, Hxy).
        apply Hf, Hy.
      * assert (Hno : forall m, incl m l -> List.filter (key_eqb x) m = []).
        { intros m Hm. apply filter_all_false. intros y Hy.
          destruct (key_eqb x y) eqn:E; [|reflexivity].
          rewrite <- Ex. symmetry. apply existsb_exists. exists y. auto. }
        rewrite !Hno; [reflexivity|apply incl_refl|].
        intros y Hy. apply Permutation_in with s; [symmetry; exact Hp|exact Hy].
Qed.
End KeyOrder.

Lemma sortByField_normal (h : heap) (a : positive) (f : string) (order : value) (l : list value) :
  h !! a = Some l -> Forall (fun x => x <> VNull) l ->
  sortByField date_to_string h a f order
  = (Normal a, <[a := isort (by_field date_to_string (order_is_asc order) f) l]> h).
Proof. intros Hh Hl. unfold sortByField. rewrite Hh, array_sort_field by exact Hl. reflexivity. Qed.

Lemma Forall_plain_not_null (Q : value -> Prop) (l : list value) :
  Forall (fun x => plain x /\ Q x) l -> Forall (fun x => x <> VNull) l.
Proof. apply List.Forall_impl. intros x [[? _] _]. assumption. Qed.

Lemma key_compare_num (f : string) (x y : value) :
  forall zx zy, field_value f x = VNum (NFin zx) -> field_value f y = VNum (NFin zy) ->
  key_compare date_to_string f x y = Z.compare (num_key f x) (num_key f y).
Proof.
  intros zx zy Ex Ey. unfold key_compare, num_key. rewrite Ex, Ey. cbn.
  symmetry. apply Z.compare_sub.
Qed.

Lemma key_compare_text (f : string) (x y : value) :
  is_number (field_value f x) = false ->
  key_compare date_to_string f x y = coll (key_text date_to_string f x) (key_text date_to_string f y).
Proof. intros Ex. unfold key_compare. rewrite Ex. reflexivity. Qed.

Lemma sorted_strongly_num (b : bool) (f : string) (l : list value) :
  Sorted (fun x y => if b then num_key f x <= num_key f y else num_key f y <= num_key f x) l ->
  StronglySorted (fun x y => if b then num_key f x <= num_key f y else num_key f y <= num_key f x) l.
Proof. apply Sorted_StronglySorted. intros x y z. destruct b; lia. Qed.

(** C3: when no element of the array is [null],
    [sortByField] returns the array it was given, and the heap afterwards
    holds at that reference the elements sorted (stably) by the field
    order of the specification, every other array unchanged. *)
Theorem sortByField_in_place (h : heap) (a : positive) (f : string) (order : value) (l : list value) :
  h !! a = Some l -> Forall (fun x => x <> VNull) l ->
  sortByField date_to_string h a f order
  = (Normal a, <[a := isort (by_field date_to_string (order_is_asc order) f) l]> h)
  /\ forall b, b <> a -> (<[a := isort (by_field date_to_string (order_is_asc order) f) l]> h) !! b = h !! b.
Proof.
  intros Hh Hl. split.
  - unfold sortByField. rewrite Hh, array_sort_field by exact Hl. reflexivity.
  - intros b Hb. apply lookup_insert_ne. congruence.
Qed.

(** C2: when every element is a record whose field is
    a finite number, [sortByField] sorts the array in place into a
    permutation ordered by that number (ascending for [order] "asc" or
    omitted, descending otherwise), keeps elements of equal key in their
    original order, and its result is the only list with these three
    properties: every conforming engine returns it. *)
Theorem sortByField_numeric (h : heap) (a : positive) (f : string) (order : value) (l : list value) :
  h !! a = Some l ->
  Forall (fun x => plain x /\ exists z, field_value f x = VNum (NFin z)) l ->
  let ordered := fun x y => if order_is_asc order then num_key f x <= num_key f y
                            else num_key f y <= num_key f x in
  let same := fun x y => (num_key f x =? num_key f y) in
  exists s, sortByField date_to_string h a f order = (Normal a, <[a := s]> h) /\
    Permutation l s /\ Sorted ordered s /\
    (forall x, In x l -> List.filter (same x) s = List.filter (same x) l) /\
    (forall s', Permutation l s' -> Sorted ordered s' ->
       (forall x, In x l -> List.filter (same x) s' = List.filter (same x) l) -> s' = s).
Proof.
  intros Hh Hl ordered same.
  set (R := fun x => exists z, field_value f x = VNum (NFin z)).
  assert (Hk : forall x y, plain x -> R x -> plain y -> R y ->
            key_compare date_to_string f x y = Z.compare (num_key f x) (num_key f y))
    by (intros x y _ [zx Ex] _ [zy Ey]; eapply key_compare_num; eauto).
  assert (Hsame : forall x y, key_eqb (num_key f) Z.compare x y = same x y)
    by (intros x y; unfold key_eqb, same; rewrite Z.eqb_compare; reflexivity).
  pose proof (keyed_sort (num_key f) Z.compare R f Z.compare_antisym
                (fun a b c => Z.le_trans a b c) Hk (order_is_asc order) l Hl) as [Hp [Hs Hf]].
  eexists. split; [apply sortByField_normal; [exact Hh|eapply Forall_plain_not_null, Hl]|].
  split; [exact Hp|split; [|split]].
  - apply StronglySorted_Sorted. exact Hs.
  - intros x Hx. rewrite !(List.filter_ext (same x) (key_eqb (num_key f) Z.compare x))
      by (intros; symmetry; apply Hsame). apply Hf, Hx.
  - intros s' Hp' Hs' Hf'.
    apply (keyed_sort_unique (num_key f) Z.compare R f Z.compare_antisym
             (fun a b c => Z.le_trans a b c) Hk (order_is_asc order) l s' Hl Hp').
    + exact (sorted_strongly_num _ f s' Hs').
    + intros x Hx. rewrite !(List.filter_ext (key_eqb (num_key f) Z.compare x) (same x))
        by (intros; apply Hsame). apply Hf', Hx.
Qed.

(** C5: when no element's field is a number, [sortByField]
    sorts the array in place by the collation of the strings
    [String(v ?? "")] of the field values (reversed for a descending
    [order]), keeps elements whose strings collate equal in their original
    order, and its result is the only list with these properties. *)
Theorem sortByField_text (h : heap) (a : positive) (f : string) (order : value) (l : list value) :
  h !! a = Some l ->
  Forall (fun x => plain x /\ is_number (field_value f x) = false) l ->
  let key := key_text date_to_string f in
  let ordered := fun x y => if order_is_asc order then coll (key x) (key y) <> Gt
                            else coll (key y) (key x) <> Gt in
  let same := fun x y => match coll (key x) (key y) with Eq => true | _ => false end in
  exists s, sortByField date_to_string h a f order = (Normal a, <[a := s]> h) /\
    Permutation l s /\ Sorted ordered s /\
    (forall x, In x l -> List.filter (same x) s = List.filter (same x) l) /\
    (forall s', Permutation l s' -> Sorted ordered s' ->
       (forall x, In x l -> List.filter (same x) s' = List.filter (same x) l) -> s' = s).
Proof.
  intros Hh Hl key ordered same.
  set (R := fun x => is_number (field_value f x) = false).
  assert (Hk : forall x y, plain x -> R x -> plain y -> R y ->
            key_compare date_to_string f x y = coll (key x) (key y))
    by (intros x y _ Ex _ _; apply key_compare_text, Ex).
  pose proof (keyed_sort key coll R f coll_antisym coll_trans Hk (order_is_asc order) l Hl)
    as [Hp [Hs Hf]].
  eexists. split; [apply sortByField_normal; [exact Hh|eapply Forall_plain_not_null, Hl]|].
  split; [exact Hp|split; [|split]].
  - apply StronglySorted_Sorted. exact Hs.
  - exact Hf.
  - intros s' Hp' Hs' Hf'.
    apply (keyed_sort_unique key coll R f coll_antisym coll_trans Hk (order_is_asc order) l s' Hl Hp');
      [|exact Hf'].
    apply Sorted_StronglySorted; [|exact Hs'].
    intros x y z. unfold ordered. destruct (order_is_asc order); intros H1 H2;
      [exact (coll_trans _ _ _ H1 H2) | exact (coll_trans _ _ _ H2 H1)].
Qed.

(** C13: an array holding [null] and at least one
    other element (and no [undefined]) makes [sortByField] throw the
    TypeError of reading a property of [null], and leaves the heap as it
    was: the array is not partly sorted. *)
Theorem sortByField_null_throws (h : heap) (a : positive) (f : string) (order : value) (l : list value) :
  h !! a = Some l -> Forall (fun x => x <> VUndefined) l -> In VNull l -> (2 <= length l)%nat ->
  sortByField date_to_string h a f order = (Throw (TypeError "Cannot read properties of null"), h).
Proof.
  intros Hh Hu Hin Hlen. unfold sortByField. rewrite Hh.
  rewrite (array_sort_null _ (TypeError "Cannot read properties of null")); [reflexivity| | | |auto..].
  - intros v _. reflexivity.
  - intros v Hv. destruct (value_eq_null v) as [->|Hn]; [reflexivity|].
    unfold field_comparator. rewrite (get_prop_plain v f) by (split; assumption). cbn.
    destruct (is_number (field_value f v)); reflexivity.
  - intros u v Hu' Hv' Hu'' Hv''. unfold field_comparator.
    rewrite (get_prop_plain u f), (get_prop_plain v f) by (split; assumption). cbn.
    destruct (is_number (field_value f u)), (is_number (field_value f v)), (order_is_asc order);
      eexists; reflexivity.
Qed.

Lemma sort_compare_field_plain (is_asc : bool) (f : string) (a b : value) :
  plain a -> plain b ->
  sort_compare (field_comparator date_to_string is_asc f) a b
  = Normal (if is_asc then key_compare date_to_string f a b else key_compare date_to_string f b a).
Proof.
  intros [Ha Ha'] [Hb Hb']. rewrite sort_compare_field by assumption.
  unfold by_field. rewrite undefined_last_def by assumption. reflexivity.
Qed.

(** C14: when two records have number fields [m < n] and a third a field
    that is not a number, whose string collates strictly between
    [String(n)] and [String(m)] (9, 10 and "10a" under ICU or code-unit
    order), the comparator is cyclic: in either direction, no
    arrangement of the three records is sorted by it.  Whatever list an
    engine writes back, some pair of it is in the order the comparator
    rejects. *)
Theorem sortByField_mixed_keys (f : string) (order : value) (x y z : value) (m n : Z) :
  plain x -> plain y -> plain z ->
  field_value f x = VNum (NFin m) -> field_value f y = VNum (NFin n) ->
  is_number (field_value f z) = false -> m < n ->
  coll (number_to_string (NFin n)) (key_text date_to_string f z) = Lt ->
  coll (key_text date_to_string f z) (number_to_string (NFin m)) = Lt ->
  forall s, Permutation [x; y; z] s ->
  ~ StronglySorted (fun a b => sort_compare (field_comparator date_to_string (order_is_asc order) f) a b
                               <> Normal Gt) s.
Proof.
  intros Px Py Pz Ex Ey Ez Hmn Hnz Hzm s Hp.
  assert (Tx : key_text date_to_string f x = number_to_string (NFin m)) by (unfold key_text; rewrite Ex; reflexivity).
  assert (Ty : key_text date_to_string f y = number_to_string (NFin n)) by (unfold key_text; rewrite Ey; reflexivity).
  assert (Kyx : key_compare date_to_string f y x = Gt).
  { rewrite (key_compare_num f y x n m Ey Ex). unfold num_key. rewrite Ex, Ey. apply Z.compare_gt_iff. lia. }
  assert (Kxy : key_compare date_to_string f x y = Lt).
  { rewrite (key_compare_num f x y m n Ex Ey). unfold num_key. rewrite Ex, Ey. apply Z.compare_lt_iff. lia. }
  assert (Kzy : key_compare date_to_string f z y = Gt).
  { rewrite key_compare_text, coll_antisym, Ty, Hnz by exact Ez. reflexivity. }
  assert (Kyz : key_compare date_to_string f y z = Lt).
  { unfold key_compare. cbv zeta. rewrite Ey, Ez. cbn [is_number andb]. rewrite Ty. exact Hnz. }
  assert (Kzx : key_compare date_to_string f z x = Lt).
  { rewrite key_compare_text, Tx by exact Ez. exact Hzm. }
  assert (Kxz : key_compare date_to_string f x z = Gt).
  { unfold key_compare. cbv zeta. rewrite Ex, Ez. cbn [is_number andb]. rewrite coll_antisym, Tx, Hzm. reflexivity. }
  destruct (order_is_asc order).
  - apply (no_sorted_cycle _ x y z); try exact Hp;
      intros H; apply H; rewrite sort_compare_field_plain by assumption; congruence.
  - apply (no_sorted_cycle _ x z y);
      [intros H; apply H; rewrite sort_compare_field_plain by assumption; congruence ..|].
    rewrite <- Hp. apply perm_skip, perm_swap.
Qed.
End SortFacts.

(** ** The examples of the specification, evaluated *)

Definition rec_v (v : value) : value := VObj [("v", v)].
Definition sample_heap (l : list value) : heap := {[1%positive := l]}.
Definition nums (l : list Z) : list value := map (fun z => rec_v (VNum (NFin z))) l.
(** No example holds a Date; any rendering of dates will do. *)
Definition no_dates (tv : option Z) : string := "Invalid Date".

Ltac solve_forall_fields :=
  repeat constructor; first [discriminate | eexists; reflexivity | reflexivity].

Lemma sortByField_in_place_witness :
  sortByField no_dates (sample_heap (nums [3; 1; 2])) 1 "v" VUndefined
  = (Normal 1%positive, sample_heap (nums [1; 2; 3])).
Proof.
  destruct (sortByField_in_place no_dates (sample_heap (nums [3; 1; 2])) 1 "v" VUndefined
              (nums [3; 1; 2]) ltac:(reflexivity) ltac:(solve_forall_fields)) as [-> _].
  vm_compute. reflexivity.
Defined.

Lemma sortByField_numeric_witness :
  exists s, sortByField no_dates (sample_heap (nums [2; 1; 2])) 1 "v" (VStr "desc")
            = (Normal 1%positive, <[1%positive := s]> (sample_heap (nums [2; 1; 2]))) /\
          Permutation (nums [2; 1; 2]) s.
Proof.
  destruct (sortByField_numeric no_dates (sample_heap (nums [2; 1; 2])) 1 "v" (VStr "desc")
              (nums [2; 1; 2]) ltac:(reflexivity) ltac:(solve_forall_fields))
    as (s & Hs & Hp & _).
  exists s. split; assumption.
Defined.

Lemma sortByField_text_witness :
  exists s, sortByField no_dates (sample_heap [rec_v (VStr "b"); rec_v VNull; rec_v (VStr "a")]) 1 "v" VUndefined
            = (Normal 1%positive, <[1%positive := s]> (sample_heap [rec_v (VStr "b"); rec_v VNull; rec_v (VStr "a")])) /\
          Permutation [rec_v (VStr "b"); rec_v VNull; rec_v (VStr "a")] s.
Proof.
  destruct (sortByField_text no_dates (sample_heap [rec_v (VStr "b"); rec_v VNull; rec_v (VStr "a")]) 1 "v"
              VUndefined [rec_v (VStr "b"); rec_v VNull; rec_v (VStr "a")]
              ltac:(reflexivity) ltac:(solve_forall_fields)) as (s & Hs & Hp & _).
  exists s. split; assumption.
Defined.

Lemma sortByField_null_throws_witness :
  sortByField no_dates (sample_heap [rec_v (VNum (NFin 1)); VNull]) 1 "v" VUndefined
  = (Throw (TypeError "Cannot read properties of null"), sample_heap [rec_v (VNum (NFin 1)); VNull]).
Proof.
  apply (sortByField_null_throws no_dates _ 1 "v" VUndefined [rec_v (VNum (NFin 1)); VNull]);
    [reflexivity | solve_forall_fields | right; left; reflexivity | simpl; lia].
Defined.

Lemma sortByField_mixed_keys_witness :
  ~ StronglySorted (fun a b => sort_compare (field_comparator no_dates (order_is_asc VUndefined) "v") a b
                               <> Normal Gt)
      [rec_v (VStr "10a"); rec_v (VNum (NFin 9)); rec_v (VNum (NFin 10))].
Proof.
  apply (sortByField_mixed_keys no_dates "v" VUndefined
           (rec_v (VNum (NFin 9))) (rec_v (VNum (NFin 10))) (rec_v (VStr "10a")) 9 10);
    try (split; discriminate); try reflexivity; try lia.
  exact (Permutation_sym (Permutation_cons_append [rec_v (VNum (NFin 9)); rec_v (VNum (NFin 10))]
                            (rec_v (VStr "10a")))).
Defined.
