(* ===== verification/CreatePage.v ===== *)
(** * The page load of [src/src/routes/create/+page.js]

    [load] is an [async] function: it returns a promise fulfilled with
    [{ task }], the blank task the creation form starts from (a [Task]
    without [id] and [created_at], whose type lives in [$lib/DB/DB.js]).
    The form shows that task with the helpers of [index.js]: its
    [due_date] and [start_date] are [null], so [displayDate] and
    [displayDateShort] take their falsy guards, [formatDate] returns 0 and
    [displayPrettyDate] returns "Geen datum" (the guards are the subject
    of the theorems of [DateFormat] and [PrettyDate]). *)

From Stdlib Require Import ZArith String List.
From S2P Require Import JsValue.
Import ListNotations.

Open Scope Z_scope.
Open Scope string_scope.

(** The value an [async] function returns: a promise already fulfilled
    when the body returns without awaiting. *)
Inductive promise (A : Type) := Fulfilled (a : A).
Arguments Fulfilled {A} a.

(** The object literal of lines 4-18, properties in source order. *)
Definition default_task : list (string * value) :=
  [("name", VStr "");
   ("description", VStr "");
   ("due_date", VNull);
   ("start_date", VNull);
   ("completed", VNum (NFin 0));
   ("repeat_specific_days", VArr []);
   ("completed_at", VNull);
   ("important", VBool false);
   ("urgent", VBool false);
   ("repeat_interval", VStr "");
   ("repeat_interval_number", VNum (NFin 1));
   ("archived", VBool false);
   ("category_id", VUndefined)].

(** [load()], lines 1-20. *)
Definition load : promise value := Fulfilled (VObj [("task", VObj default_task)]).
